(** * rembg/background_remover.py: a shallow embedding and its properties

    The script is a command-line tool: it expands its arguments into a list
    of candidate image paths, runs a background-segmentation primitive on
    each, optionally composites the result over white, and saves it.

    The embedding keeps the shape of the script:
    - [pathlib]   the pure path operations the script uses
                  (Path(..), str, name, stem, suffix, parent, /);
    - [fnmatch]   the shell-pattern match behind [Path.glob];
    - [PIL]       images, [Image.new], [Image.paste];
    - [os]        a file system without symbolic links: is_file, is_dir,
                  glob, mkdir(exist_ok=True), reading and writing a file;
    - [background_remover]
                  [remove_background] and [main], in state-passing style
                  over a world made of the file system and standard output.

    The image codecs and the segmentation model are outside the script;
    they are parameters of the section [background_remover.remover].  The
    module [example] instantiates them on a small file system, and
    [example_runs] runs the script there. *)

From Stdlib Require Import ZArith Ascii String DecimalString.
From stdpp Require Import gmap strings list fin_maps.

Local Open Scope string_scope.

(** ** Results of calls that may raise *)

(** A Python exception is kept as the text [str(e)] gives. *)
Definition exn := string.

Inductive result (A : Type) : Type :=
| Ok (a : A)
| Raise (e : exn).
Arguments Ok {A} a.
Arguments Raise {A} e.

#[global] Instance result_ret : MRet result := fun _ a => Ok a.
#[global] Instance result_bind : MBind result := fun _ _ k r =>
  match r with
  | Ok a => k a
  | Raise e => Raise e
  end.

(** ** Strings *)

Module str.

(** [s.split(sep)] for a one-character separator. *)
Fixpoint split (sep : ascii) (s : string) : list string :=
  match s with
  | EmptyString => [EmptyString]
  | String c s' =>
      if Ascii.eqb c sep then EmptyString :: split sep s'
      else match split sep s' with
           | [] => [String c EmptyString]
           | h :: t => String c h :: t
           end
  end.

(** [sep.join(l)]. *)
Fixpoint join (sep : string) (l : list string) : string :=
  match l with
  | [] => ""
  | [x] => x
  | x :: l' => x ++ sep ++ join sep l'
  end.

(** [s.rfind(c)], with [None] for Python's -1. *)
Fixpoint rfind (c : ascii) (s : string) : option nat :=
  match s with
  | EmptyString => None
  | String d s' =>
      match rfind c s' with
      | Some i => Some (S i)
      | None => if Ascii.eqb d c then Some 0 else None
      end
  end.

(** [s[:i]] and [s[i:]]. *)
Fixpoint take (i : nat) (s : string) : string :=
  match i, s with
  | S i', String c s' => String c (take i' s')
  | _, _ => ""
  end.

Fixpoint drop (i : nat) (s : string) : string :=
  match i, s with
  | S i', String _ s' => drop i' s'
  | _, _ => s
  end.

(** [s.endswith(t)]. *)
Definition endswith (s t : string) : bool :=
  String.eqb (drop (String.length s - String.length t) s) t
  && (String.length t <=? String.length s)%nat.

(** [s.startswith(t)]. *)
Fixpoint startswith (s t : string) {struct t} : bool :=
  match t, s with
  | EmptyString, _ => true
  | String b t', String a s' => Ascii.eqb a b && startswith s' t'
  | String _ _, EmptyString => false
  end.

(** [c in s]. *)
Fixpoint mem (c : ascii) (s : string) : bool :=
  match s with
  | EmptyString => false
  | String d s' => Ascii.eqb d c || mem c s'
  end.

(** [str(n)] for a natural number. *)
Definition of_nat (n : nat) : string :=
  NilZero.string_of_uint (Nat.to_uint n).

End str.

(** ** pathlib (PurePosixPath) *)

Module pathlib.

(** A path is its root ("", "/" or "//") and its components.  The
    components never contain "/", "" or "."; ".." is kept. *)
Record Path := mkPath { root : string; parts : list string }.

#[global] Instance Path_eq_dec : EqDecision Path.
Proof. solve_decision. Defined.

(** The root of a path string: "/" when it starts with one slash or with
    three or more, "//" when it starts with exactly two. *)
Definition parse_root (s : string) : string :=
  if str.startswith s "/" then
    if str.startswith (str.drop 1 s) "/" then
      if str.startswith (str.drop 2 s) "/" then "/" else "//"
    else "/"
  else "".

Definition is_part (c : string) : bool :=
  negb (String.eqb c "") && negb (String.eqb c ".").

Definition parse_parts (s : string) : list string :=
  List.filter is_part (str.split "/" s).

(** [Path(s)] *)
Definition of_str (s : string) : Path :=
  {| root := parse_root s; parts := parse_parts s |}.

(** [str(p)] *)
Definition to_str (p : Path) : string :=
  match root p, parts p with
  | EmptyString, [] => "."
  | r, ps => r ++ str.join "/" ps
  end.

(** [p.name] *)
Definition name (p : Path) : string := List.last (parts p) "".

(** The index at which [name] is cut into stem and suffix: the last dot,
    when it is neither the first nor the last character. *)
Definition cut (n : string) : option nat :=
  match str.rfind "." n with
  | Some i => if (0 <? i)%nat && (i <? String.length n - 1)%nat
              then Some i else None
  | None => None
  end.

(** [p.suffix] *)
Definition suffix (p : Path) : string :=
  match cut (name p) with
  | Some i => str.drop i (name p)
  | None => ""
  end.

(** [p.stem] *)
Definition stem (p : Path) : string :=
  match cut (name p) with
  | Some i => str.take i (name p)
  | None => name p
  end.

(** [p.parent] *)
Definition parent (p : Path) : Path :=
  {| root := root p; parts := List.removelast (parts p) |}.

(** [p / s] *)
Definition div (p : Path) (s : string) : Path :=
  let q := of_str s in
  match root q with
  | EmptyString => {| root := root p; parts := parts p ++ parts q |}
  | _ => q
  end.

(** A component as [Path(..)] produces them. *)
Definition valid_part (c : string) : Prop :=
  is_part c = true ∧ str.mem "/" c = false.

Definition valid_partb (c : string) : bool :=
  is_part c && negb (str.mem "/" c).

(** A path as [Path(..)] produces them. *)
Definition valid (p : Path) : Prop :=
  root p ∈ [""; "/"; "//"] ∧ Forall valid_part (parts p).

End pathlib.

Abbreviation Path := pathlib.Path.

(** ** fnmatch *)

Module fnmatch.

(** [fnmatchcase(name, pat)] for patterns made of literal characters
    and [*]; the script's patterns use nothing else. *)
Fixpoint go (pat : string) : string → bool :=
  match pat with
  | EmptyString => fun n => match n with EmptyString => true | _ => false end
  | String c pat' =>
      if Ascii.eqb c "*" then
        fix star (n : string) : bool :=
          go pat' n || match n with
                       | EmptyString => false
                       | String _ n' => star n'
                       end
      else
        fun n => match n with
                 | EmptyString => false
                 | String d n' => Ascii.eqb c d && go pat' n'
                 end
  end.

Definition fnmatchcase (n pat : string) : bool := go pat n.

End fnmatch.

(** ** PIL images *)

Module PIL.

Definition rgb : Type := Z * Z * Z.
Definition rgba : Type := Z * Z * Z * Z.

(** An image is its mode, its size (width, height) and its rows of
    pixels, top row first.  Bands are 8-bit values. *)
Inductive Image : Type :=
| RGB (size : nat * nat) (rows : list (list rgb))
| RGBA (size : nat * nat) (rows : list (list rgba)).

Definition size (im : Image) : nat * nat :=
  match im with RGB sz _ | RGBA sz _ => sz end.

Definition has_alpha (im : Image) : bool :=
  match im with RGB _ _ => false | RGBA _ _ => true end.

(** Every row has [width] pixels and there are [height] rows. *)
Definition well_formed (im : Image) : Prop :=
  match im with
  | RGB (w, h) rows => length rows = h ∧ Forall (λ r, length r = w) rows
  | RGBA (w, h) rows => length rows = h ∧ Forall (λ r, length r = w) rows
  end.

(** [Image.new('RGB', size, color)] *)
Definition new_RGB (sz : nat * nat) (color : rgb) : Image :=
  RGB sz (replicate (snd sz) (replicate (fst sz) color)).

(** Pillow's 8-bit blend: [DIV255 (in1 * (255 - mask) + in2 * mask)],
    with the division by 255 done by shifts. *)
Definition DIV255 (a : Z) : Z :=
  let tmp := (a + 128)%Z in Z.shiftr (Z.shiftr tmp 8 + tmp) 8.

Definition BLEND (mask in1 in2 : Z) : Z :=
  DIV255 (in1 * (255 - mask) + in2 * mask)%Z.

Definition blend_rgb (out : rgb) (src : rgb * Z) : rgb :=
  let '(r, g, b) := out in
  let '((r', g', b'), m) := src in
  (BLEND m r r', BLEND m g g', BLEND m b b').

Definition blend_rgba (out : rgba) (src : rgba * Z) : rgba :=
  let '(r, g, b, a) := out in
  let '((r', g', b', a'), m) := src in
  (BLEND m r r', BLEND m g g', BLEND m b b', BLEND m a a').

(** Combine a destination with a source from the first element on; what
    the source does not cover is kept, what overhangs is dropped: a
    paste at the origin, clipped to the destination. *)
Fixpoint overlay {A B} (f : A → B → A) (dst : list A) (src : list B)
  : list A :=
  match dst, src with
  | d :: dst', s :: src' => f d s :: overlay f dst' src'
  | _, _ => dst
  end.

Definition colour_rows (im : Image) : list (list rgba) :=
  match im with
  | RGB _ rows => map (map (λ '(r, g, b), (r, g, b, 255%Z))) rows
  | RGBA _ rows => rows
  end.

Definition drop_alpha (p : rgba) : rgb := let '(r, g, b, _) := p in (r, g, b).
Definition alpha (p : rgba) : Z := let '(_, _, _, a) := p in a.

(** [dst.paste(im, (0, 0), mask)]: the result is the new value of
    [dst].  The mask must have an alpha band and the size of [im]. *)
Definition paste (dst im mask : Image) : result Image :=
  match mask with
  | RGB _ _ => Raise "bad transparency mask"
  | RGBA msz mrows =>
      if decide (size im = msz) then
        let src := zip_with (λ ps ms, zip ps (map alpha ms))
                            (colour_rows im) mrows in
        match dst with
        | RGB sz rows =>
            Ok (RGB sz (overlay
              (λ drow srow,
                 overlay blend_rgb drow
                         (map (λ '(p, m), (drop_alpha p, m)) srow))
              rows src))
        | RGBA sz rows =>
            Ok (RGBA sz (overlay (overlay blend_rgba) rows src))
        end
      else Raise "images do not match"
  end.

Definition white : rgb := (255, 255, 255)%Z.

(** One pixel of an RGBA image laid over white, with its own alpha as
    the mask. *)
Definition over_white (p : rgba) : rgb :=
  blend_rgb white (drop_alpha p, alpha p).

(** The values of a band. *)
Definition band (v : Z) : Prop := (0 ≤ v ≤ 255)%Z.

(** A pixel with 8-bit colours that is fully clear or fully opaque. *)
Definition opaque_or_clear (p : rgba) : Prop :=
  (alpha p = 0 ∨ alpha p = 255)%Z
  ∧ band p.1.1.1 ∧ band p.1.1.2 ∧ band p.1.2.

(** A pixel whose four bands are 8-bit. *)
Definition eight_bit (p : rgba) : Prop :=
  band p.1.1.1 ∧ band p.1.1.2 ∧ band p.1.2 ∧ band (alpha p).

End PIL.

(** ** The file system *)

Module os.

Inductive node : Type :=
| File (data : list Byte.byte)
| Dir.

(** The file system maps absolute paths, as lists of components from
    the root, to nodes; the root itself is always a directory.  There
    are no symbolic links. *)
Abbreviation FS := (gmap (list string) node).

Inductive errno := ENOENT | EEXIST | ENOTDIR | EISDIR.

Definition stat (fs : FS) (abs : list string) : option node :=
  match abs with
  | [] => Some Dir
  | _ => fs !! abs
  end.

(** Every entry has a name a path can end with. *)
Definition well_named (fs : FS) : Prop :=
  ∀ k, is_Some (fs !! k) → Forall pathlib.valid_part k.

(** A later file system keeps the directories of an earlier one. *)
Definition keeps_dirs (fs fs' : FS) : Prop :=
  ∀ k, stat fs k = Some Dir → stat fs' k = Some Dir.

(** A later file system extends an earlier one when directories are
    still directories and files are still files. *)
Definition extends (fs fs' : FS) : Prop :=
  keeps_dirs fs fs'
  ∧ ∀ k data, stat fs k = Some (File data) →
              ∃ data', stat fs' k = Some (File data').

Section resolution.
(** The text of an [OSError] for an error number and a file name. *)
Variable OSError : errno → string → exn.
(** The working directory, an absolute path. *)
Variable cwd : list string.

(** Follow the components [ps] from [cur].  Every directory walked
    through must exist; the last component need not. *)
Fixpoint walk (fs : FS) (cur : list string) (ps : list string)
  : errno + list string :=
  match ps with
  | [] => inr cur
  | c :: ps' =>
      match stat fs cur with
      | Some Dir =>
          walk fs (if String.eqb c ".." then removelast cur
                   else cur ++ [c]) ps'
      | Some (File _) => inl ENOTDIR
      | None => inl ENOENT
      end
  end.

Definition resolve (fs : FS) (p : Path) : errno + list string :=
  walk fs (match pathlib.root p with EmptyString => cwd | _ => [] end)
       (pathlib.parts p).

Definition node_at (fs : FS) (p : Path) : option node :=
  match resolve fs p with
  | inr abs => stat fs abs
  | inl _ => None
  end.

(** [p.is_file()], [p.is_dir()] *)
Definition is_file (fs : FS) (p : Path) : bool :=
  match node_at fs p with Some (File _) => true | _ => false end.

Definition is_dir (fs : FS) (p : Path) : bool :=
  match node_at fs p with Some Dir => true | _ => false end.

(** The names of the entries of the directory [abs], in the order the
    system lists them. *)
Fixpoint child_name (abs : list string) (k : list string)
  : option string :=
  match abs, k with
  | [], [n] => Some n
  | a :: abs', b :: k' =>
      if String.eqb a b then child_name abs' k' else None
  | _, _ => None
  end.

Definition listdir (fs : FS) (abs : list string) : list string :=
  omap (λ kv, child_name abs kv.1) (map_to_list fs).

(** The path of the entry [n] of the directory [p]. *)
Definition child (p : Path) (n : string) : Path :=
  pathlib.mkPath (pathlib.root p) (pathlib.parts p ++ [n]).

(** [p.glob(pat)] for a pattern without "/" or "**": the entries of
    the directory [p] whose name matches; nothing when [p] is not a
    directory. *)
Definition glob (fs : FS) (p : Path) (pat : string) : list Path :=
  match resolve fs p with
  | inr abs =>
      match stat fs abs with
      | Some Dir =>
          map (child p)
              (List.filter (λ n, fnmatch.fnmatchcase n pat)
                           (listdir fs abs))
      | _ => []
      end
  | inl _ => []
  end.

(** [p.mkdir(exist_ok=True)]: the parent must exist; an existing
    directory is accepted, an existing file is not. *)
Definition mkdir_exist_ok (fs : FS) (p : Path) : result FS :=
  match resolve fs p with
  | inl e => Raise (OSError e (pathlib.to_str p))
  | inr abs =>
      match stat fs abs with
      | Some Dir => Ok fs
      | Some (File _) => Raise (OSError EEXIST (pathlib.to_str p))
      | None =>
          match stat fs (removelast abs) with
          | Some Dir => Ok (<[abs := Dir]> fs)
          | Some (File _) => Raise (OSError ENOTDIR (pathlib.to_str p))
          | None => Raise (OSError ENOENT (pathlib.to_str p))
          end
      end
  end.

(** [open(s, 'rb').read()] *)
Definition read (fs : FS) (s : string) : result (list Byte.byte) :=
  match resolve fs (pathlib.of_str s) with
  | inl e => Raise (OSError e s)
  | inr abs =>
      match stat fs abs with
      | Some (File data) => Ok data
      | Some Dir => Raise (OSError EISDIR s)
      | None => Raise (OSError ENOENT s)
      end
  end.

(** [open(s, 'wb').write(data)]: the file is created or replaced; its
    directory must exist. *)
Definition write (fs : FS) (s : string) (data : list Byte.byte)
  : result FS :=
  match resolve fs (pathlib.of_str s) with
  | inl e => Raise (OSError e s)
  | inr abs =>
      match stat fs abs with
      | Some Dir => Raise (OSError EISDIR s)
      | Some (File _) => Ok (<[abs := File data]> fs)
      | None =>
          match stat fs (removelast abs) with
          | Some Dir => Ok (<[abs := File data]> fs)
          | Some (File _) => Raise (OSError ENOTDIR s)
          | None => Raise (OSError ENOENT s)
          end
      end
  end.

End resolution.

End os.

(** ** The script *)

Module background_remover.

(** The command line after [argparse]. *)
Record Args := mkArgs {
  input : list string;          (* positional, nargs="*" *)
  output : option string;       (* -o / --output *)
  transparent : bool;           (* -t / --transparent *)
  all : bool;                   (* --all *)
  model : string                (* -m / --model *)
}.

(** What the script can observe and change: the file system and the lines
    printed so far. *)
Record World := mkWorld { fs : os.FS; stdout : list string }.

(** How [main] ends: it returns, or an exception leaves it. *)
Inductive Outcome : Type :=
| Returned (w : World)
| Uncaught (e : exn) (w : World).

(** What the encoder behind [Image.save] does for a file name and an image:
    - [Encoded data]: the file gets [data];
    - [Refused e]: [e] is raised before the file is opened (for instance an
      unknown extension);
    - [Broken e written]: the file is opened and [e] is raised midway, after
      [written] (for instance a mode the format cannot store). *)
Inductive encoding : Type :=
| Encoded (data : list Byte.byte)
| Refused (e : exn)
| Broken (e : exn) (written : list Byte.byte).

Definition print (line : string) (w : World) : World :=
  mkWorld (fs w) (stdout w ++ [line]).

Definition newline : string := String (ascii_of_nat 10) "".

(** The endings the patterns of the script stand for. *)
Definition extensions : list string :=
  [".jpg"; ".jpeg"; ".png"; ".JPG"; ".JPEG"; ".PNG"].

(** A name has a recognized extension when one of them ends it. *)
Definition has_image_extension (n : string) : bool :=
  existsb (str.endswith n) extensions.

Section remover.

Variable OSError : os.errno → string → exn.
Variable cwd : list string.

(** The codecs of PIL. *)
Variable Image_decode : list Byte.byte → result PIL.Image.
Variable Image_encode : string → PIL.Image → encoding.

(** The segmentation library: [new_session(model)] and
    [remove(image, session=session)]. *)
Variable Session : Type.
Variable new_session : string → result Session.
Variable remove : PIL.Image → Session → result PIL.Image.

(** [Image.open(path)] *)
Definition Image_open (fs : os.FS) (path : string) : result PIL.Image :=
  data ← os.read OSError cwd fs path; Image_decode data.

(** [image.save(path)]: the outcome and the file system it leaves.  When
    the encoder breaks midway, a file that was there before keeps what
    was written and a file created by the call is removed again. *)
Definition Image_save (fs : os.FS) (path : string) (im : PIL.Image)
  : result () * os.FS :=
  match Image_encode path im with
  | Refused e => (Raise e, fs)
  | Encoded data =>
      match os.write OSError cwd fs path data with
      | Ok fs' => (Ok (), fs')
      | Raise e => (Raise e, fs)
      end
  | Broken e written =>
      match os.write OSError cwd fs path written with
      | Ok fs' =>
          (Raise e,
           if os.is_file cwd fs (pathlib.of_str path) then fs' else fs)
      | Raise e' => (Raise e', fs)
      end
  end.

(** Lines 42-47: the image that will be saved. *)
Definition on_background (white_background : bool)
  (output_image : PIL.Image) : result PIL.Image :=
  if white_background then
    let white_bg :=
      PIL.new_RGB (PIL.size output_image) (255, 255, 255)%Z in
    PIL.paste white_bg output_image output_image
  else Ok output_image.

(** Lines 50-52: the output path when none is given. *)
Definition derived_output_path (input_path : string) : string :=
  let input_path_obj := pathlib.of_str input_path in
  pathlib.to_str
    (pathlib.div (pathlib.parent input_path_obj)
       (pathlib.stem input_path_obj ++ "_no_bg"
          ++ pathlib.suffix input_path_obj)).

Definition final_output_path (input_path : string)
  (output_path : option string) : string :=
  match output_path with
  | None => derived_output_path input_path
  | Some o => o
  end.

(** Lines 33-47: from the input file to the image to save. *)
Definition result_image (fs : os.FS) (input_path : string)
  (white_background : bool) (model : string) : result PIL.Image :=
  input_image ← Image_open fs input_path;
  session ← new_session model;
  output_image ← remove input_image session;
  on_background white_background output_image.

(** The body of the [try] (lines 33-56). *)
Definition try_body (input_path : string) (output_path : option string)
  (white_background : bool) (model : string) (w : World)
  : result () * World :=
  match result_image (fs w) input_path white_background model with
  | Raise e => (Raise e, w)
  | Ok output_image =>
      let output_path := final_output_path input_path output_path in
      match Image_save (fs w) output_path output_image with
      | (Raise e, fs') => (Raise e, mkWorld fs' (stdout w))
      | (Ok _, fs') =>
          (Ok (),
           print ("Processed: " ++ input_path ++ " -> " ++ output_path)
                 (mkWorld fs' (stdout w)))
      end
  end.

(** [remove_background(input_path, output_path, white_background, model)] *)
Definition remove_background (input_path : string)
  (output_path : option string) (white_background : bool)
  (model : string) (w : World) : bool * World :=
  match try_body input_path output_path white_background model w with
  | (Raise e, w') =>
      (false, print ("Error processing " ++ input_path ++ ": " ++ e) w')
  | (Ok _, w') => (true, w')
  end.

(** The patterns of lines 85, 90 and 102. *)
Definition patterns : list string :=
  ["*.jpg"; "*.jpeg"; "*.png"; "*.JPG"; "*.JPEG"; "*.PNG"].

(** [for ext in patterns: input_files.extend(d.glob(ext))] *)
Definition glob_images (fs : os.FS) (d : Path) : list Path :=
  ext ← patterns; os.glob cwd fs d ext.

(** Lines 98-103: what one positional argument contributes. *)
Definition expand_item (fs : os.FS) (item : string) : list Path :=
  let path := pathlib.of_str item in
  if os.is_file cwd fs path then [path]
  else if os.is_dir cwd fs path then glob_images fs path
  else [].

(** Lines 80-103: the input files, or [None] for the return of
    line 94. *)
Definition input_files (a : Args) (fs : os.FS) : option (list Path) :=
  if all a then Some (glob_images fs (pathlib.of_str "."))
  else match input a with
       | [] =>
           match glob_images fs (pathlib.of_str ".") with
           | [] => None
           | l => Some l
           end
       | items => Some (item ← items; expand_item fs item)
       end.

(** Lines 114-118: the output path of one input file; the output
    directory is made on the way. *)
Definition output_path_for (a : Args) (input_file : Path) (fs : os.FS)
  : result (option string * os.FS) :=
  match output a with
  | None | Some EmptyString => Ok (None, fs)
  | Some o =>
      let output_dir := pathlib.of_str o in
      fs' ← os.mkdir_exist_ok OSError cwd fs output_dir;
      Ok (Some (pathlib.to_str
                  (pathlib.div output_dir
                     (pathlib.stem input_file ++ pathlib.suffix input_file))),
          fs')
  end.

(** The output directory, when one is asked for, is there. *)
Definition output_ready (a : Args) (fs : os.FS) : Prop :=
  match output a with
  | None | Some EmptyString => True
  | Some d => os.is_dir cwd fs (pathlib.of_str d) = true
  end.

(** Lines 114-120: one turn of the loop.  It gives what
    [remove_background] returned, unless making the output directory
    raised. *)
Definition iteration (a : Args) (input_file : Path) (w : World)
  : result (bool * World) :=
  '(output_path, fs') ← output_path_for a input_file (fs w);
  Ok (remove_background (pathlib.to_str input_file) output_path
        (negb (transparent a)) (model a) (mkWorld fs' (stdout w))).

(** Lines 112-121: the loop over the input files. *)
Fixpoint process_files (a : Args) (files : list Path)
  (success_count : nat) (w : World) : result nat * World :=
  match files with
  | [] => (Ok success_count, w)
  | input_file :: rest =>
      match iteration a input_file w with
      | Raise e => (Raise e, w)
      | Ok (ok, w') =>
          process_files a rest
            (if ok then S success_count else success_count) w'
      end
  end.

(** What [remove_background] returned for each input file, in order,
    and the world the loop ends in; an exception that leaves the loop is
    passed on. *)
Fixpoint outcomes (a : Args) (files : list Path) (w : World)
  : result (list bool * World) :=
  match files with
  | [] => Ok ([], w)
  | input_file :: rest =>
      '(ok, w') ← iteration a input_file w;
      '(oks, w'') ← outcomes a rest w';
      Ok (ok :: oks, w'')
  end.

(** The lines of lines 109 and 123. *)
Definition found (total : nat) : string :=
  "Found " ++ str.of_nat total ++ " image files to process".

Definition summary (success_count total : nat) : string :=
  newline ++ "Completed: " ++ str.of_nat success_count ++ "/"
    ++ str.of_nat total ++ " files processed successfully".

(** [main()] after argument parsing. *)
Definition main (a : Args) (w : World) : Outcome :=
  match input_files a (fs w) with
  | None => Returned (print "No image files found in current directory" w)
  | Some [] => Returned (print "No image files found to process" w)
  | Some files =>
      let w1 := print (found (length files)) w in
      match process_files a files 0 w1 with
      | (Raise e, w2) => Uncaught e w2
      | (Ok success_count, w2) =>
          Returned (print (summary success_count (length files)) w2)
      end
  end.

End remover.

End background_remover.

Import background_remover.

(** ** A concrete world *)

(** A small file system, toy codecs and a toy segmentation: enough to run
    the script on concrete command lines. *)
Module example.
Import os.
Local Open Scope list_scope.

Definition OSError (e : errno) (s : string) : exn :=
  match e with
  | ENOENT => "[Errno 2] No such file or directory: "
  | EEXIST => "[Errno 17] File exists: "
  | ENOTDIR => "[Errno 20] Not a directory: "
  | EISDIR => "[Errno 21] Is a directory: "
  end +:+ s.

Definition cwd : list string := ["home"].

(** An empty file is not an image; any other file decodes to two grey
    pixels, the first as bright as its first byte, the second as dark. *)
Definition decode (data : list Byte.byte) : result PIL.Image :=
  match data with
  | [] => Raise "cannot identify image file"
  | b :: _ =>
      let v := Z.of_N (Byte.to_N b) in
      Ok (PIL.RGB (2, 1)
            [[(v, v, v); (255 - v, 255 - v, 255 - v)%Z]])
  end.

Definition to_byte (v : Z) : Byte.byte :=
  default Byte.x00 (Byte.of_N (Z.to_N v)).

(** PNG stores any mode, JPEG has no alpha, other extensions are
    unknown. *)
Definition encode (path : string) (im : PIL.Image) : encoding :=
  let data :=
    match im with
    | PIL.RGB _ rows =>
        '(r, g, b) ← concat rows; [to_byte r; to_byte g; to_byte b]
    | PIL.RGBA _ rows =>
        '(r, g, b, a) ← concat rows;
        [to_byte r; to_byte g; to_byte b; to_byte a]
    end in
  if str.endswith path ".png" then Encoded data
  else if str.endswith path ".jpg" then
    if PIL.has_alpha im then Broken "cannot write mode RGBA as JPEG" []
    else Encoded data
  else Refused "unknown file extension".

(** The "segmentation" takes the bright pixels for the foreground. *)
Definition segment (im : PIL.Image) (_ : ()) : result PIL.Image :=
  match im with
  | PIL.RGB sz rows =>
      Ok (PIL.RGBA sz
            (map (map (λ '(r, g, b),
                         (r, g, b, if (r <? 128)%Z then 0 else 255)%Z))
                 rows))
  | PIL.RGBA _ _ => Ok im
  end.

Definition session (model : string) : result () := Ok ().

Definition disk : FS :=
  list_to_map
    [(["home"], Dir);
     (["home"; "a.png"], File [Byte.xf0]);
     (["home"; "b.png"], File []);
     (["home"; "c.jpg"], File [Byte.x10]);
     (["home"; "notes.txt"], File [Byte.x41]);
     (["home"; "blocker"], File []);
     (["home"; "pics"], Dir);
     (["home"; "pics"; "a.png"], File [Byte.x10]);
     (["home"; "pics"; "d.JPEG"], File [Byte.x20]);
     (["home"; "pics"; "readme.md"], File [Byte.x41]);
     (["home"; "pics"; "raw"], Dir);
     (["home"; "pics"; "raw"; "e.png"], File [Byte.x30])].

Definition start : World := mkWorld disk [].

Definition run := main OSError cwd decode encode () session segment.
Definition turn := iteration OSError cwd decode encode () session segment.
Definition call :=
  remove_background OSError cwd decode encode () session segment.

(** The world a call, a turn or a loop ends in. *)
Definition after_call (r : bool * World) : World := r.2.

Definition after_turn (r : result (bool * World)) : World :=
  match r with Ok (_, w) => w | Raise _ => start end.

Definition after_loop (r : result (list bool * World)) : World :=
  match r with Ok (_, w) => w | Raise _ => start end.

Definition explicit (items : list string) : Args :=
  mkArgs items None false false "u2net".

Definition into (dir : string) (items : list string) : Args :=
  mkArgs items (Some dir) false false "u2net".

(** Three files named on the command line; b.png is empty. *)
Definition three : Args := explicit ["a.png"; "b.png"; "c.jpg"].

Definition three_files : list Path :=
  pathlib.of_str <$> ["a.png"; "b.png"; "c.jpg"].

Definition three_end : World :=
  after_loop
    (outcomes OSError cwd decode encode () session segment three three_files
       (print (found 3) start)).

(** The same with --transparent. *)
Definition transparent_args : Args :=
  mkArgs ["a.png"] None true false "u2net".

(** A working directory without images. *)
Definition bare : FS :=
  list_to_map [(["home"], Dir); (["home"; "notes.txt"], File [Byte.x41])].

(** Two files of the same name sent to one directory, and the worlds
    after the first and the second turn of the loop. *)
Definition two : Args := into "out" ["a.png"; "pics/a.png"].

Definition two_first : World :=
  after_turn (turn two (pathlib.of_str "a.png") (print (found 2) start)).

Definition two_second : World :=
  after_turn (turn two (pathlib.of_str "pics/a.png") two_first).

(** The worlds the default run and the run on three files end in. *)
Definition end_of (r : Outcome) : World :=
  match r with Returned w | Uncaught _ w => w end.

Definition default_end : World := end_of (run (explicit []) start).

Definition three_done : World := end_of (run three start).

(** Two arguments that name nothing. *)
Definition ghosts : Args := explicit ["ghost.png"; "nowhere"].

(** --all with and without a positional argument. *)
Definition all_here : Args := mkArgs [] None false true "u2net".
Definition all_there : Args := mkArgs ["pics"] None false true "u2net".

(** -o names the directory the input is in. *)
Definition in_place : Args := into "pics" ["pics/a.png"].

(** A result with a hard mask, and one with a soft edge. *)
Definition hard_rows : list (list PIL.rgba) :=
  [[(10, 20, 30, 255); (40, 50, 60, 0)]]%Z.

Definition soft_rows : list (list PIL.rgba) :=
  [[(10, 20, 30, 128); (40, 50, 60, 7)]]%Z.

End example.

(** * Properties *)

(** ** Paths *)

Module pathlib_facts.
Import pathlib.

Lemma app_cons c (s t : string) : String c s +:+ t = String c (s +:+ t).
Proof. reflexivity. Qed.

Lemma app_nil_l (t : string) : "" +:+ t = t.
Proof. reflexivity. Qed.

Lemma app_nil_r (s : string) : s +:+ "" = s.
Proof. induction s as [|c s IH]; [done | by rewrite app_cons, IH]. Qed.

Lemma length_app (s t : string) :
  String.length (s +:+ t) = String.length s + String.length t.
Proof.
  induction s as [|c s IH]; [done |].
  rewrite app_cons. simpl. by rewrite IH.
Qed.

Lemma mem_app c (s t : string) :
  str.mem c (s +:+ t) = str.mem c s || str.mem c t.
Proof.
  induction s as [|d s IH]; [done |].
  rewrite app_cons. simpl. by rewrite IH, orb_assoc.
Qed.

Lemma take_drop i (s : string) : str.take i s +:+ str.drop i s = s.
Proof.
  revert s. induction i as [|i IH]; intros [|c s]; simpl; try done.
  by rewrite app_cons, IH.
Qed.

Lemma split_mem sep s :
  Forall (λ c, str.mem sep c = false) (str.split sep s).
Proof.
  induction s as [|d s IH]; simpl.
  - by constructor.
  - destruct (Ascii.eqb d sep) eqn:E.
    + by constructor.
    + destruct (str.split sep s) as [|h t].
      * repeat constructor. simpl. by rewrite E.
      * inversion_clear IH as [|?? Hh Ht].
        constructor; [simpl; by rewrite E, Hh | done].
Qed.

Lemma split_free sep c : str.mem sep c = false → str.split sep c = [c].
Proof.
  induction c as [|d c IH]; simpl; [done |].
  intros [E1 E2]%orb_false_iff. by rewrite E1, IH.
Qed.

Lemma split_app_sep sep c s :
  str.mem sep c = false →
  str.split sep (c +:+ String sep s) = c :: str.split sep s.
Proof.
  induction c as [|d c IH]; rewrite ?app_cons, ?app_nil_l; simpl.
  - by rewrite Ascii.eqb_refl.
  - intros [E1 E2]%orb_false_iff. by rewrite E1, IH.
Qed.

Lemma split_join sep l :
  l ≠ [] → Forall (λ c, str.mem sep c = false) l →
  str.split sep (str.join (String sep "") l) = l.
Proof.
  induction l as [|x l IH]; [done |]. intros _ Hl.
  inversion_clear Hl as [|?? Hx Hl'].
  destruct l as [|y l].
  - simpl. by apply split_free.
  - change (str.join (String sep "") (x :: y :: l))
      with (x +:+ String sep (str.join (String sep "") (y :: l))).
    rewrite split_app_sep by done. f_equal. by apply IH.
Qed.

Lemma filter_valid l : Forall valid_part l → List.filter is_part l = l.
Proof.
  induction 1 as [|c l [Hc _] _ IH]; simpl; [done |].
  by rewrite Hc, IH.
Qed.

Lemma valid_parts_mem l :
  Forall valid_part l → Forall (λ c, str.mem "/" c = false) l.
Proof. intros H. eapply Forall_impl; [exact H |]. by intros c [_ ?]. Qed.

Lemma parse_parts_valid s : Forall valid_part (parse_parts s).
Proof.
  unfold parse_parts. pose proof (split_mem "/" s) as H.
  induction H as [|c l Hc _ IH]; simpl; [constructor |].
  destruct (is_part c) eqn:E; [constructor |]; done.
Qed.

(** [Path(s)] is always a well-formed path. *)
Lemma of_str_valid s : valid (of_str s).
Proof.
  split; [| apply parse_parts_valid].
  simpl. unfold parse_root.
  repeat case_match; set_solver.
Qed.

Lemma startswith_part c (s : string) :
  valid_part c → str.startswith (c +:+ s) "/" = false.
Proof.
  intros [Hp Hm]. destruct c as [|d c]; [done |].
  rewrite app_cons. simpl in *. apply orb_false_iff in Hm as [-> _]. done.
Qed.

Lemma join_cons (x : string) l :
  ∃ t, str.join "/" (x :: l) = x +:+ t.
Proof.
  destruct l as [|y l]; simpl.
  - exists "". by rewrite app_nil_r.
  - eauto.
Qed.

Lemma startswith_join x l :
  valid_part x → str.startswith (str.join "/" (x :: l)) "/" = false.
Proof.
  intros Hx. destruct (join_cons x l) as [t ->].
  by apply startswith_part.
Qed.

Lemma parse_parts_join l :
  Forall valid_part l → parse_parts (str.join "/" l) = l.
Proof.
  intros Hl. unfold parse_parts.
  destruct l as [|x l]; [done |].
  rewrite split_join; [by apply filter_valid | done |].
  by apply valid_parts_mem.
Qed.

(** Printing a well-formed path and reading it back gives the path. *)
Lemma of_str_to_str p : valid p → of_str (to_str p) = p.
Proof.
  destruct p as [r ps]. intros [Hr Hps]. simpl in *.
  assert (parse_parts (str.join "/" ps) = ps) as Hparts
    by (by apply parse_parts_join).
  assert (str.startswith (str.join "/" ps) "/" = false) as Hstart.
  { destruct ps as [|x l]; [done |].
    apply startswith_join. by inversion Hps. }
  apply elem_of_cons in Hr as [-> | Hr];
    [| apply elem_of_cons in Hr as [-> | Hr];
       [| apply list_elem_of_singleton in Hr as ->]].
  - destruct ps as [|x l]; [done |].
    change (to_str (mkPath "" (x :: l))) with (str.join "/" (x :: l)).
    unfold of_str, parse_root. by rewrite Hparts, Hstart.
  - change (to_str (mkPath "/" ps)) with (String "/" (str.join "/" ps)).
    unfold of_str. f_equal.
    + unfold parse_root.
      change (str.drop 1 (String "/" ?s)) with s.
      change (str.startswith (String "/" ?s) "/") with true.
      by rewrite Hstart.
    + unfold parse_parts in *. simpl. exact Hparts.
  - change (to_str (mkPath "//" ps))
      with (String "/" (String "/" (str.join "/" ps))).
    unfold of_str. f_equal.
    + unfold parse_root.
      change (str.drop 2 (String "/" (String "/" ?s))) with s.
      change (str.drop 1 (String "/" ?s)) with s.
      change (str.startswith (String "/" ?s) "/") with true.
      by rewrite Hstart.
    + unfold parse_parts in *. simpl. exact Hparts.
Qed.

Lemma of_str_part c : valid_part c → of_str c = mkPath "" [c].
Proof.
  intros Hc. unfold of_str. f_equal.
  - unfold parse_root.
    rewrite <- (app_nil_r c) at 1. by rewrite startswith_part.
  - unfold parse_parts. destruct Hc as [Hp Hm].
    rewrite split_free by done. simpl. by rewrite Hp.
Qed.

(** Joining a directory with a plain file name adds one component. *)
Lemma div_part p c :
  valid_part c → div p c = mkPath (root p) (parts p ++ [c]).
Proof. intros Hc. unfold div. by rewrite of_str_part. Qed.

Lemma valid_name p : valid p → str.mem "/" (name p) = false.
Proof.
  intros [_ Hps]. unfold name.
  induction Hps as [|c l [_ Hc] _ IH]; [done |].
  destruct l; [done | exact IH].
Qed.

(** The stem and the suffix cut the name in two. *)
Lemma stem_suffix p : stem p +:+ suffix p = name p.
Proof.
  unfold stem, suffix. destruct (cut (name p)) as [i|].
  - apply take_drop.
  - apply app_nil_r.
Qed.

Lemma valid_stem_suffix p :
  valid p → str.mem "/" (stem p) = false ∧ str.mem "/" (suffix p) = false.
Proof.
  intros Hp. apply valid_name in Hp.
  rewrite <- stem_suffix, mem_app in Hp. by apply orb_false_iff in Hp.
Qed.

Lemma valid_parent p : valid p → valid (parent p).
Proof.
  intros [Hr Hps]. split; [done |]. simpl.
  induction Hps as [|c l Hc Hl IH]; [constructor |].
  destruct l; [constructor |]. simpl. constructor; [done | exact IH].
Qed.

Lemma valid_snoc p c :
  valid p → valid_part c → valid (mkPath (root p) (parts p ++ [c])).
Proof.
  intros [Hr Hps] Hc. split; [done |]. simpl.
  apply Forall_app. split; [done | by constructor].
Qed.

Lemma name_snoc r ps c : name (mkPath r (ps ++ [c])) = c.
Proof. unfold name. simpl. apply last_last. Qed.

Lemma parent_snoc r ps c : parent (mkPath r (ps ++ [c])) = mkPath r ps.
Proof. unfold parent. simpl. by rewrite removelast_last. Qed.

End pathlib_facts.

(** ** Images *)

Module PIL_facts.
Import PIL.

Lemma DIV255_exact v : band v → DIV255 (v * 255) = v.
Proof.
  unfold band, DIV255. intros Hv. cbv zeta.
  rewrite !Z.shiftr_div_pow2 by lia.
  change (2 ^ 8)%Z with 256%Z.
  Z.div_mod_to_equations. lia.
Qed.

(** Where the mask is 0 the destination is kept. *)
Lemma BLEND_0 out v : band out → BLEND 0 out v = out.
Proof.
  intros H. unfold BLEND.
  replace (out * (255 - 0) + v * 0)%Z with (out * 255)%Z by lia.
  by apply DIV255_exact.
Qed.

(** Where the mask is 255 the source is copied. *)
Lemma BLEND_255 out v : band v → BLEND 255 out v = v.
Proof.
  intros H. unfold BLEND.
  replace (out * (255 - 255) + v * 255)%Z with (v * 255)%Z by lia.
  by apply DIV255_exact.
Qed.

Lemma over_white_transparent p : alpha p = 0%Z → over_white p = white.
Proof.
  destruct p as [[[r g] b] a]. simpl. intros ->.
  unfold over_white, white. simpl.
  rewrite !BLEND_0; [done | unfold band; lia ..].
Qed.

Lemma over_white_opaque p :
  alpha p = 255%Z → band p.1.1.1 → band p.1.1.2 → band p.1.2 →
  over_white p = drop_alpha p.
Proof.
  destruct p as [[[r g] b] a]. simpl. intros -> Hr Hg Hb.
  unfold over_white, white. simpl.
  by rewrite !BLEND_255.
Qed.

Lemma overlay_replicate {A B} (f : A → B → A) d (src : list B) :
  overlay f (replicate (length src) d) src = map (f d) src.
Proof. induction src as [|s src IH]; simpl; [done | by rewrite IH]. Qed.

Lemma zip_with_diag {A B} (f : A → A → B) (l : list A) :
  zip_with f l l = map (λ x, f x x) l.
Proof. induction l as [|x l IH]; simpl; [done | by rewrite IH]. Qed.

Lemma zip_map_r {A B} (g : A → B) (l : list A) :
  zip l (map g l) = map (λ x, (x, g x)) l.
Proof. induction l as [|x l IH]; simpl; [done | by rewrite IH]. Qed.

(** Pasting a well-formed RGBA image onto a fresh white canvas of its
    size, with itself as the mask, lays every pixel over white. *)
Lemma paste_on_white sz rows :
  well_formed (RGBA sz rows) →
  paste (new_RGB sz white) (RGBA sz rows) (RGBA sz rows)
  = Ok (RGB sz (map (map over_white) rows)).
Proof.
  destruct sz as [w h]. intros [Hh Hw]. unfold paste, new_RGB.
  rewrite decide_True by done. do 2 f_equal.
  simpl fst; simpl snd; simpl colour_rows.
  rewrite zip_with_diag, <- Hh. clear Hh.
  induction Hw as [|row rows Hrow _ IH]; [done |].
  simpl. f_equal; [| exact IH].
  rewrite zip_map_r, map_map, <- Hrow.
  rewrite <- (length_map (λ x, let '(p, m) := (x, alpha x) in (drop_alpha p, m)) row) at 1.
  by rewrite overlay_replicate, map_map.
Qed.

End PIL_facts.

(** ** Patterns and extensions *)

Module fnmatch_facts.
Import pathlib_facts.

Lemma eqb_length (s t : string) :
  String.eqb s t = true → String.length s = String.length t.
Proof. by intros ->%String.eqb_eq. Qed.

Lemma drop_app (s t : string) : str.drop (String.length s) (s +:+ t) = t.
Proof. induction s as [|c s IH]; [by destruct t | exact IH]. Qed.

(** [s.endswith(t)] says that [t] ends [s]. *)
Lemma endswith_spec (s t : string) :
  str.endswith s t = true ↔ ∃ pre, s = pre +:+ t.
Proof.
  unfold str.endswith. split.
  - intros [E _]%andb_true_iff. apply String.eqb_eq in E.
    set (k := String.length s - String.length t) in E.
    exists (str.take k s). by rewrite <- E, take_drop.
  - intros [pre ->]. rewrite length_app.
    replace (String.length pre + String.length t - String.length t)
      with (String.length pre) by lia.
    rewrite drop_app, String.eqb_refl. simpl.
    apply Nat.leb_le. lia.
Qed.

(** A pattern without [*] matches itself only. *)
Lemma go_literal lit n :
  str.mem "*" lit = false → fnmatch.go lit n = String.eqb lit n.
Proof.
  revert n. induction lit as [|c lit IH]; intros n; simpl.
  - by destruct n.
  - intros [-> Hlit]%orb_false_iff. destruct n as [|d n]; [done |].
    by rewrite IH.
Qed.

(** [*] followed by a literal matches the names the literal ends. *)
Lemma go_star lit n :
  str.mem "*" lit = false →
  fnmatch.go (String "*" lit) n = str.endswith n lit.
Proof.
  intros Hlit. simpl. induction n as [|c n IH].
  - rewrite go_literal by done. unfold str.endswith. simpl.
    by destruct lit.
  - rewrite IH, go_literal by done. clear IH.
    unfold str.endswith. simpl String.length.
    destruct (decide (String.length lit ≤ String.length n)%nat) as [Hle | Hgt].
    + replace (S (String.length n) - String.length lit)
        with (S (String.length n - String.length lit)) by lia.
      simpl str.drop.
      assert (String.eqb lit (String c n) = false) as ->.
      { apply not_true_iff_false. intros E%eqb_length. simpl in E. lia. }
      simpl. f_equal. apply eq_true_iff_eq.
      rewrite !Nat.leb_le. lia.
    + assert ((String.length lit <=? String.length n)%nat = false) as ->
        by (apply Nat.leb_gt; lia).
      rewrite andb_false_r, orb_false_r.
      destruct (decide (String.length lit = S (String.length n))) as [E | NE].
      * rewrite E, Nat.sub_diag. simpl str.drop.
        rewrite Nat.leb_refl, andb_true_r. apply String.eqb_sym.
      * assert ((String.length lit <=? S (String.length n))%nat = false) as ->
          by (apply Nat.leb_gt; lia).
        rewrite andb_false_r.
        apply not_true_iff_false. intros E%eqb_length. simpl in E. lia.
Qed.

(** Two endings of one name: the shorter one ends the longer one. *)
Lemma endswith_both n e1 e2 :
  str.endswith n e1 = true → str.endswith n e2 = true →
  (String.length e1 ≤ String.length e2)%nat →
  str.endswith e2 e1 = true.
Proof.
  rewrite !endswith_spec. intros [p1 ->] [p2 E] Hlen.
  revert p1 E. induction p2 as [|c p2 IH]; intros p1 E.
  - exists p1. by rewrite app_nil_l in E.
  - destruct p1 as [|d p1].
    + rewrite app_nil_l in E. subst e1.
      rewrite length_app in Hlen. simpl in Hlen. lia.
    + rewrite !app_cons in E. injection E as _ E. by apply (IH p1).
Qed.

End fnmatch_facts.

(** ** The file system *)

Module os_facts.
Import os.
Local Open Scope list_scope.

Lemma child_name_spec abs k n :
  child_name abs k = Some n ↔ k = abs ++ [n].
Proof.
  revert k. induction abs as [|a abs IH]; intros k; simpl.
  - destruct k as [|x [|y k]]; split; intros H; by simplify_eq.
  - destruct k as [|b k]; [split; intros H; by simplify_eq |].
    destruct (String.eqb a b) eqn:E.
    + apply String.eqb_eq in E as ->. rewrite IH.
      split; intros H; by simplify_eq.
    + apply String.eqb_neq in E. split; intros H; by simplify_eq.
Qed.

(** The listing of a directory holds the names of its entries. *)
Lemma elem_of_listdir (fs : FS) abs n :
  n ∈ listdir fs abs ↔ is_Some (fs !! (abs ++ [n])).
Proof.
  unfold listdir. rewrite list_elem_of_omap. split.
  - intros [[k v] [Hkv Hn]]. simpl in Hn.
    apply child_name_spec in Hn as ->.
    apply elem_of_map_to_list in Hkv. eauto.
  - intros [v Hv]. exists (abs ++ [n], v). split.
    + by apply elem_of_map_to_list.
    + by apply child_name_spec.
Qed.

Lemma NoDup_omap_inj {A B} (f : A → option B) (l : list A) :
  NoDup l →
  (∀ x y z, x ∈ l → y ∈ l → f x = Some z → f y = Some z → x = y) →
  NoDup (omap f l).
Proof.
  induction 1 as [|x l Hx Hl IH]; intros Hinj; simpl; [constructor |].
  assert (NoDup (omap f l)) as IH'.
  { apply IH. intros ??? ??. apply Hinj; by constructor. }
  destruct (f x) as [z|] eqn:Hfx; [| done].
  constructor; [| done].
  intros [y [Hy Hfy]]%list_elem_of_omap.
  assert (x = y) as ->; [| done].
  eapply Hinj; [by left | by right | done..].
Qed.

(** A name is listed once. *)
Lemma NoDup_listdir (fs : FS) abs : NoDup (listdir fs abs).
Proof.
  unfold listdir. apply NoDup_omap_inj; [apply NoDup_map_to_list |].
  intros [k1 v1] [k2 v2] n H1 H2 E1 E2. simpl in *.
  apply child_name_spec in E1 as ->. apply child_name_spec in E2 as ->.
  apply elem_of_map_to_list in H1, H2. by simplify_eq.
Qed.

Lemma child_inj p n1 n2 : child p n1 = child p n2 → n1 = n2.
Proof. unfold child. intros E. by simplify_list_eq. Qed.

Section resolution.
Variable cwd : list string.

Lemma walk_keeps fs fs' cur ps abs :
  keeps_dirs fs fs' → walk fs cur ps = inr abs → walk fs' cur ps = inr abs.
Proof.
  intros Hk. revert cur. induction ps as [|c ps IH]; intros cur; simpl.
  - done.
  - destruct (stat fs cur) as [[d|]|] eqn:E; try done.
    rewrite (Hk _ E). apply IH.
Qed.

Lemma resolve_keeps fs fs' p abs :
  keeps_dirs fs fs' →
  resolve cwd fs p = inr abs → resolve cwd fs' p = inr abs.
Proof. intros Hk. unfold resolve. by apply walk_keeps. Qed.

Lemma keeps_dirs_refl fs : keeps_dirs fs fs.
Proof. by intros k. Qed.

Lemma keeps_dirs_trans fs1 fs2 fs3 :
  keeps_dirs fs1 fs2 → keeps_dirs fs2 fs3 → keeps_dirs fs1 fs3.
Proof. intros H1 H2 k Hk. by apply H2, H1. Qed.

Lemma stat_insert fs abs v k :
  abs ≠ [] →
  stat (<[abs := v]> fs) k
  = if decide (abs = k) then Some v else stat fs k.
Proof.
  intros Habs. destruct k as [|c k]; simpl.
  - by rewrite decide_False.
  - apply lookup_insert.
Qed.

(** Replacing a file, or adding a node where there was none, keeps
    the directories. *)
Lemma keeps_dirs_insert fs abs v :
  stat fs abs ≠ Some Dir → keeps_dirs fs (<[abs := v]> fs).
Proof.
  intros Hn k Hk. destruct abs as [|a abs]; [done |].
  rewrite stat_insert by done. case_decide; [by subst | done].
Qed.

(** Membership in a glob. *)
Lemma elem_of_glob fs d pat p :
  p ∈ glob cwd fs d pat ↔
  ∃ abs n, resolve cwd fs d = inr abs ∧ stat fs abs = Some Dir
           ∧ n ∈ listdir fs abs
           ∧ fnmatch.fnmatchcase n pat = true ∧ p = child d n.
Proof.
  unfold glob. split.
  - destruct (resolve cwd fs d) as [e | abs]; [by intros ?%elem_of_nil |].
    destruct (stat fs abs) as [[data|]|] eqn:E;
      try by intros ?%elem_of_nil.
    intros [n [-> Hn]]%list_elem_of_fmap.
    apply list_elem_of_In, filter_In in Hn as [Hn Hm].
    exists abs, n. by rewrite list_elem_of_In.
  - intros (abs & n & -> & -> & Hn & Hm & ->).
    apply list_elem_of_fmap. exists n. split; [done |].
    apply list_elem_of_In, filter_In. by rewrite <- list_elem_of_In.
Qed.

Lemma NoDup_filter_list {A} (f : A → bool) (l : list A) :
  NoDup l → NoDup (List.filter f l).
Proof.
  induction 1 as [|x l Hx Hl IH]; simpl; [constructor |].
  destruct (f x); [| done]. constructor; [| done].
  rewrite list_elem_of_In, filter_In, <- list_elem_of_In. tauto.
Qed.

Lemma NoDup_glob fs d pat : NoDup (glob cwd fs d pat).
Proof.
  unfold glob. repeat case_match; try constructor.
  apply NoDup_fmap_2_strong.
  - intros n1 n2 _ _. apply child_inj.
  - apply NoDup_filter_list, NoDup_listdir.
Qed.

End resolution.

End os_facts.

(** ** The input enumerator *)

Section enumerator_facts.
Import os os_facts fnmatch_facts.
Local Open Scope list_scope.

Variable cwd : list string.

Lemma patterns_extensions : patterns = String "*" <$> extensions.
Proof. reflexivity. Qed.

Lemma extension_literal e : e ∈ extensions → str.mem "*" e = false.
Proof.
  unfold extensions. intros H.
  repeat (apply elem_of_cons in H as [-> | H]; [done |]).
  by apply elem_of_nil in H.
Qed.

(** A name matches one of the patterns exactly when it has a recognized
    extension. *)
Lemma matches_pattern n :
  (∃ pat, pat ∈ patterns ∧ fnmatch.fnmatchcase n pat = true)
  ↔ has_image_extension n = true.
Proof.
  unfold has_image_extension. rewrite existsb_exists, patterns_extensions.
  split.
  - intros (pat & [e [-> He]]%list_elem_of_fmap & Hm).
    exists e. rewrite <- list_elem_of_In. split; [done |].
    unfold fnmatch.fnmatchcase in Hm.
    by rewrite go_star in Hm by by apply extension_literal.
  - intros (e & He%list_elem_of_In & Hm).
    exists (String "*" e). split; [by apply list_elem_of_fmap_2 |].
    unfold fnmatch.fnmatchcase.
    by rewrite go_star by by apply extension_literal.
Qed.

(** A name has at most one of the extensions. *)
Lemma extension_unique n e1 e2 :
  e1 ∈ extensions → e2 ∈ extensions →
  str.endswith n e1 = true → str.endswith n e2 = true → e1 = e2.
Proof.
  intros H1 H2 E1 E2.
  assert (str.endswith e2 e1 = true ∨ str.endswith e1 e2 = true) as Hc.
  { destruct (decide (String.length e1 ≤ String.length e2)%nat);
      [left | right]; eapply endswith_both; eauto; lia. }
  clear E1 E2. unfold extensions in *.
  repeat (apply elem_of_cons in H1 as [-> | H1]);
    try (by apply elem_of_nil in H1);
    repeat (apply elem_of_cons in H2 as [-> | H2]);
    try (by apply elem_of_nil in H2);
    try done;
    by destruct Hc as [Hc | Hc]; vm_compute in Hc.
Qed.

Lemma pattern_unique n p1 p2 :
  p1 ∈ patterns → p2 ∈ patterns →
  fnmatch.fnmatchcase n p1 = true → fnmatch.fnmatchcase n p2 = true →
  p1 = p2.
Proof.
  rewrite patterns_extensions.
  intros [e1 [-> H1]]%list_elem_of_fmap [e2 [-> H2]]%list_elem_of_fmap.
  unfold fnmatch.fnmatchcase.
  rewrite !go_star by by apply extension_literal.
  intros E1 E2. f_equal. by eapply extension_unique.
Qed.

(** What globbing the six patterns in a directory finds: the entries of
    that directory whose name has a recognized extension. *)
Lemma elem_of_glob_images fs d p :
  p ∈ glob_images cwd fs d ↔
  ∃ abs n, resolve cwd fs d = inr abs ∧ stat fs abs = Some Dir
           ∧ n ∈ listdir fs abs
           ∧ has_image_extension n = true ∧ p = child d n.
Proof.
  unfold glob_images. rewrite list_elem_of_bind. split.
  - intros (pat & (abs & n & ? & ? & ? & ? & ?)%elem_of_glob & Hpat).
    exists abs, n. repeat split; try done.
    apply matches_pattern. eauto.
  - intros (abs & n & ? & ? & ? & (pat & ? & ?)%matches_pattern & ?).
    exists pat. split; [| done]. apply elem_of_glob. eauto 10.
Qed.

Lemma NoDup_patterns : NoDup patterns.
Proof.
  compute_done.
Qed.

(** Globbing the six patterns lists no path twice. *)
Lemma NoDup_glob_images fs d : NoDup (glob_images cwd fs d).
Proof.
  unfold glob_images. apply NoDup_bind; [| | apply NoDup_patterns].
  - intros p1 p2 y H1 H2.
    intros (abs1 & n1 & _ & _ & _ & M1 & ->)%elem_of_glob.
    intros (abs2 & n2 & _ & _ & _ & M2 & E)%elem_of_glob.
    apply child_inj in E as ->. by eapply pattern_unique.
  - intros pat _. apply NoDup_glob.
Qed.

(** The glob of a directory, up to the order of the listing: its entries
    with a recognized extension, each once. *)
Lemma glob_images_listing fs d abs :
  resolve cwd fs d = inr abs → stat fs abs = Some Dir →
  glob_images cwd fs d
  ≡ₚ child d <$> List.filter has_image_extension (listdir fs abs).
Proof.
  intros Hr Hs. apply NoDup_Permutation.
  - apply NoDup_glob_images.
  - apply NoDup_fmap_2_strong.
    + intros ?? _ _. apply child_inj.
    + apply NoDup_filter_list, NoDup_listdir.
  - intros p. rewrite elem_of_glob_images, list_elem_of_fmap. split.
    + intros (abs' & n & Hr' & _ & Hn & Hm & ->).
      exists n. split; [done |].
      rewrite Hr in Hr'. injection Hr' as <-.
      apply list_elem_of_In, filter_In. by rewrite <- list_elem_of_In.
    + intros (n & -> & [Hn Hm]%list_elem_of_In%filter_In).
      exists abs, n. by rewrite list_elem_of_In.
Qed.

Lemma is_dir_spec fs p :
  is_dir cwd fs p = true ↔
  ∃ abs, resolve cwd fs p = inr abs ∧ stat fs abs = Some Dir.
Proof.
  unfold is_dir, node_at. split.
  - destruct (resolve cwd fs p) as [|abs]; [done |].
    destruct (stat fs abs) as [[|]|] eqn:E; try done. intros _. by exists abs.
  - by intros (abs & -> & ->).
Qed.

Lemma is_dir_not_file fs p : is_dir cwd fs p = true → is_file cwd fs p = false.
Proof.
  unfold is_dir, is_file. by destruct (node_at cwd fs p) as [[|]|].
Qed.

Lemma expand_item_dir fs item :
  is_dir cwd fs (pathlib.of_str item) = true →
  expand_item cwd fs item = glob_images cwd fs (pathlib.of_str item).
Proof.
  intros H. unfold expand_item. by rewrite is_dir_not_file, H.
Qed.

Lemma NoDup_expand_item fs item : NoDup (expand_item cwd fs item).
Proof.
  unfold expand_item. repeat case_match.
  - apply NoDup_singleton.
  - apply NoDup_glob_images.
  - constructor.
Qed.

Lemma NoDup_bind_disjoint {A B} (f : A → list B) (l : list A) :
  (∀ x, x ∈ l → NoDup (f x)) →
  (∀ i j x y, i ≠ j → l !! i = Some x → l !! j = Some y →
              ∀ p, p ∈ f x → p ∉ f y) →
  NoDup (l ≫= f).
Proof.
  induction l as [|x l IH]; intros Hnd Hdis; csimpl; [constructor |].
  apply NoDup_app. split_and!.
  - apply Hnd. by left.
  - intros p Hp [y [Hy [j Hj]%list_elem_of_lookup]]%list_elem_of_bind.
    by apply (Hdis 0 (S j) x y ltac:(lia) eq_refl Hj p).
  - apply IH.
    + intros y Hy. apply Hnd. by right.
    + intros i j y z Hij Hi Hj. apply (Hdis (S i) (S j)); [lia | done..].
Qed.

(** On a well-named file system whose working directory is a directory,
    every candidate is a well-formed path with a name. *)
Lemma candidates_have_names a fs files f :
  well_named fs → stat fs cwd = Some Dir →
  input_files cwd a fs = Some files → f ∈ files →
  pathlib.valid f ∧ pathlib.parts f ≠ [].
Proof.
  intros Hwn Hcwd Hfiles Hf.
  assert (∀ d, f ∈ glob_images cwd fs (pathlib.of_str d) →
               pathlib.valid f ∧ pathlib.parts f ≠ []) as Hglob.
  { intros d (abs & n & _ & _ & Hn & _ & ->)%elem_of_glob_images.
    apply elem_of_listdir in Hn. apply Hwn in Hn.
    apply Forall_app in Hn as [_ Hn]. rewrite Forall_singleton in Hn. split.
    - unfold child.
      apply pathlib_facts.valid_snoc; [apply pathlib_facts.of_str_valid | done].
    - unfold child. simpl. intros E.
      apply app_eq_nil in E as [_ E]. discriminate. }
  unfold input_files in Hfiles. destruct (all a).
  { injection Hfiles as <-. by eapply Hglob. }
  destruct (input a) as [|item items].
  { destruct (glob_images cwd fs (pathlib.of_str ".")) eqn:Hg; [done |].
    injection Hfiles as <-. eapply Hglob. by rewrite Hg. }
  assert (files = (item :: items) ≫= expand_item cwd fs) as ->
    by (by injection Hfiles).
  apply list_elem_of_bind in Hf as (it & Hf & _).
  unfold expand_item in Hf.
  destruct (is_file cwd fs (pathlib.of_str it)) eqn:Hfile.
  - apply list_elem_of_singleton in Hf as ->.
    split; [apply pathlib_facts.of_str_valid |].
    intros Hparts. unfold is_file, node_at, resolve in Hfile.
    rewrite Hparts in Hfile.
    destruct (pathlib.root (pathlib.of_str it)); cbn [walk] in Hfile;
      [by rewrite Hcwd in Hfile | by simpl in Hfile].
  - destruct (is_dir cwd fs (pathlib.of_str it)).
    + by eapply Hglob.
    + by apply elem_of_nil in Hf.
Qed.

End enumerator_facts.

Section enumerator_claims.
Import os os_facts.
Local Open Scope list_scope.

Variable cwd : list string.

(** C5, as amended.  Every candidate either has a recognized extension
    (it comes from globbing a directory: --all, the default, or a
    directory argument) or is a positional argument that names an
    existing file, which is taken whatever its extension. *)
Theorem candidate_recognized_or_explicit_file a fs files p :
  input_files cwd a fs = Some files → p ∈ files →
  has_image_extension (pathlib.name p) = true
  ∨ (all a = false
     ∧ ∃ item, item ∈ input a ∧ p = pathlib.of_str item
               ∧ is_file cwd fs p = true).
Proof.
  intros Hfiles Hp.
  assert (∀ d, p ∈ glob_images cwd fs d →
               has_image_extension (pathlib.name p) = true) as Hglob.
  { intros d (abs & n & _ & _ & _ & Hn & ->)%elem_of_glob_images.
    unfold child. by rewrite pathlib_facts.name_snoc. }
  unfold input_files in Hfiles. destruct (all a) eqn:Hall.
  { injection Hfiles as <-. left. by eapply Hglob. }
  destruct (input a) as [|item items] eqn:Hin.
  { destruct (glob_images cwd fs (pathlib.of_str ".")) eqn:Hg; [done |].
    injection Hfiles as <-. left. eapply Hglob. by rewrite Hg. }
  assert (files = (item :: items) ≫= expand_item cwd fs) as ->
    by (by injection Hfiles).
  apply list_elem_of_bind in Hp as (it & Hp & Hit).
  unfold expand_item in Hp.
  destruct (is_file cwd fs (pathlib.of_str it)) eqn:Hf.
  - apply list_elem_of_singleton in Hp as ->. right. eauto.
  - destruct (is_dir cwd fs (pathlib.of_str it)).
    + left. by eapply Hglob.
    + by apply elem_of_nil in Hp.
Qed.

(** C6, as amended.  With --all, or with no positional argument, the
    sequence of candidates has no duplicate.  With positional arguments
    each argument contributes its own paths without duplicates, and the
    sequence has no duplicate as long as no path is contributed by two
    of the arguments. *)
Theorem candidates_NoDup a fs files :
  input_files cwd a fs = Some files →
  all a = true ∨ input a = []
  ∨ (∀ i j x y, i ≠ j → input a !! i = Some x → input a !! j = Some y →
                ∀ p, p ∈ expand_item cwd fs x → p ∉ expand_item cwd fs y) →
  NoDup files.
Proof.
  intros Hfiles Hcases. unfold input_files in Hfiles.
  destruct (all a) eqn:Hall.
  { injection Hfiles as <-. apply NoDup_glob_images. }
  destruct (input a) as [|item items] eqn:Hin.
  { destruct (glob_images cwd fs (pathlib.of_str ".")) eqn:Hg; [done |].
    injection Hfiles as <-. rewrite <- Hg. apply NoDup_glob_images. }
  assert (files = (item :: items) ≫= expand_item cwd fs) as ->
    by (by injection Hfiles).
  destruct Hcases as [? | [? | Hdis]]; [done.. |].
  apply NoDup_bind_disjoint; [| exact Hdis].
  intros x _. apply NoDup_expand_item.
Qed.


End enumerator_claims.

(** ** Processing *)

Section processing_facts.
Import os os_facts.
Local Open Scope list_scope.

Variable OSError : os.errno → string → exn.
Variable cwd : list string.
Variable Image_decode : list Byte.byte → result PIL.Image.
Variable Image_encode : string → PIL.Image → encoding.
Variable Session : Type.
Variable new_session : string → result Session.
Variable remove : PIL.Image → Session → result PIL.Image.

Local Abbreviation Image_save := (Image_save OSError cwd Image_encode).
Local Abbreviation result_image :=
  (result_image OSError cwd Image_decode Session new_session remove).
Local Abbreviation remove_background :=
  (remove_background OSError cwd Image_decode Image_encode
     Session new_session remove).
Local Abbreviation iteration :=
  (iteration OSError cwd Image_decode Image_encode Session new_session remove).
Local Abbreviation process_files :=
  (process_files OSError cwd Image_decode Image_encode Session new_session remove).
Local Abbreviation outcomes :=
  (outcomes OSError cwd Image_decode Image_encode Session new_session remove).

Lemma extends_refl fs : extends fs fs.
Proof. split; [apply keeps_dirs_refl | eauto]. Qed.

Lemma extends_trans fs1 fs2 fs3 :
  extends fs1 fs2 → extends fs2 fs3 → extends fs1 fs3.
Proof.
  intros [D1 F1] [D2 F2]. split; [by eapply keeps_dirs_trans |].
  intros k data [data' H]%F1. by eapply F2.
Qed.

Lemma extends_insert fs abs v :
  stat fs abs ≠ Some Dir → (v = Dir → stat fs abs = None) →
  extends fs (<[abs := v]> fs).
Proof.
  intros Hn Hv. split; [by apply keeps_dirs_insert |].
  intros k data Hk. destruct abs as [|c abs]; [done |].
  rewrite stat_insert by done. case_decide as E; [| eauto].
  subst k. destruct v as [data' |]; [eauto |].
  rewrite Hv in Hk; done.
Qed.

Lemma is_file_extends fs fs' p :
  extends fs fs' → is_file cwd fs p = true → is_file cwd fs' p = true.
Proof.
  intros [HD HF]. unfold is_file, node_at.
  destruct (resolve cwd fs p) as [|abs] eqn:Hr; [done |].
  rewrite (resolve_keeps cwd fs fs' p abs HD Hr).
  destruct (stat fs abs) as [[data|]|] eqn:Hs; try done.
  destruct (HF _ _ Hs) as [data' ->]. done.
Qed.

Lemma write_Ok fs s data fs' :
  write OSError cwd fs s data = Ok fs' →
  ∃ abs, resolve cwd fs (pathlib.of_str s) = inr abs
         ∧ stat fs abs ≠ Some Dir
         ∧ fs' = <[abs := File data]> fs.
Proof.
  unfold write.
  destruct (resolve cwd fs (pathlib.of_str s)) as [e | abs]; try done.
  destruct (stat fs abs) as [[old|]|] eqn:Hs; try done.
  - intros [= <-]. exists abs. by rewrite Hs.
  - destruct (stat fs (removelast abs)) as [[|]|]; try done.
    intros [= <-]. exists abs. by rewrite Hs.
Qed.

Lemma mkdir_Ok fs p fs' :
  mkdir_exist_ok OSError cwd fs p = Ok fs' →
  ∃ abs, resolve cwd fs p = inr abs
         ∧ (stat fs abs = Some Dir ∧ fs' = fs
            ∨ stat fs abs = None ∧ fs' = <[abs := Dir]> fs).
Proof.
  unfold mkdir_exist_ok.
  destruct (resolve cwd fs p) as [e | abs]; try done.
  destruct (stat fs abs) as [[old|]|] eqn:Hs; try done.
  - intros [= <-]. exists abs. by rewrite Hs; auto.
  - destruct (stat fs (removelast abs)) as [[|]|]; try done.
    intros [= <-]. exists abs. by rewrite Hs; auto.
Qed.

Lemma mkdir_extends fs p fs' :
  mkdir_exist_ok OSError cwd fs p = Ok fs' → extends fs fs'.
Proof.
  intros (abs & _ & [[_ ->] | [Hs ->]])%mkdir_Ok; [apply extends_refl |].
  apply extends_insert; [by rewrite Hs | done].
Qed.

(** After [mkdir] the path is a directory. *)
Lemma mkdir_is_dir fs p fs' :
  mkdir_exist_ok OSError cwd fs p = Ok fs' → is_dir cwd fs' p = true.
Proof.
  intros Hm. pose proof (mkdir_extends _ _ _ Hm) as [HD _].
  apply mkdir_Ok in Hm as (abs & Hr & Hcase).
  apply (is_dir_spec cwd). exists abs.
  split; [by eapply resolve_keeps |].
  destruct Hcase as [[Hs ->] | [Hs ->]]; [done |].
  destruct abs as [|c abs]; [done |].
  rewrite stat_insert by done. by rewrite decide_True.
Qed.

(** A written path is a file afterwards, with the data written. *)
Lemma written fs p abs data :
  resolve cwd fs p = inr abs → stat fs abs ≠ Some Dir →
  resolve cwd (<[abs := File data]> fs) p = inr abs
  ∧ stat (<[abs := File data]> fs) abs = Some (File data)
  ∧ is_file cwd (<[abs := File data]> fs) p = true.
Proof.
  intros Hr Hs.
  assert (resolve cwd (<[abs := File data]> fs) p = inr abs) as Hr'.
  { eapply resolve_keeps; [| done]. by apply keeps_dirs_insert. }
  assert (stat (<[abs := File data]> fs) abs = Some (File data)) as Hs'.
  { destruct abs as [|c abs]; [done |].
    rewrite stat_insert by done. by rewrite decide_True. }
  split_and!; [done.. |].
  unfold is_file, node_at. by rewrite Hr', Hs'.
Qed.

Lemma Image_save_Ok fs s im u fs' :
  Image_save fs s im = (Ok u, fs') →
  ∃ data, Image_encode s im = Encoded data
          ∧ write OSError cwd fs s data = Ok fs'.
Proof.
  unfold background_remover.Image_save.
  destruct (Image_encode s im) as [data | e | e part]; try done.
  - destruct (write OSError cwd fs s data) eqn:Hw; [| done].
    intros [= _ <-]. eauto.
  - destruct (write OSError cwd fs s part); done.
Qed.

Lemma Image_save_extends fs s im r fs' :
  Image_save fs s im = (r, fs') → extends fs fs'.
Proof.
  assert (∀ data fs1, write OSError cwd fs s data = Ok fs1 →
                      extends fs fs1) as Hw.
  { intros data fs1 (abs & _ & Hs & ->)%write_Ok.
    by apply extends_insert. }
  unfold background_remover.Image_save.
  destruct (Image_encode s im) as [data | e | e part].
  - destruct (write OSError cwd fs s data) eqn:E; intros [= _ <-];
      [by eapply Hw | apply extends_refl].
  - intros [= _ <-]. apply extends_refl.
  - destruct (write OSError cwd fs s part) eqn:E.
    + destruct (is_file cwd fs (pathlib.of_str s)); intros [= _ <-];
        [by eapply Hw | apply extends_refl].
    + intros [= _ <-]. apply extends_refl.
Qed.

(** When [remove_background] returns [True] the image was computed,
    encoded and written at the output path, and one line was printed. *)
Lemma remove_background_true s o wb m w w' :
  remove_background s o wb m w = (true, w') →
  let out := final_output_path s o in
  ∃ img data abs,
    result_image (fs w) s wb m = Ok img
    ∧ Image_encode out img = Encoded data
    ∧ resolve cwd (fs w) (pathlib.of_str out) = inr abs
    ∧ stat (fs w) abs ≠ Some Dir
    ∧ fs w' = <[abs := File data]> (fs w)
    ∧ stdout w' = stdout w ++ ["Processed: " +:+ s +:+ " -> " +:+ out].
Proof.
  unfold background_remover.remove_background, try_body. cbv zeta.
  set (out := final_output_path s o). intros H.
  destruct (result_image (fs w) s wb m) as [img | e]; [| done].
  destruct (Image_save (fs w) out img) as [[u | e] fs1] eqn:Hsave;
    [| done].
  injection H as <-.
  apply Image_save_Ok in Hsave as (data & Henc & Hw).
  apply write_Ok in Hw as (abs & Hr & Hs & ->).
  by exists img, data, abs.
Qed.

(** When it returns [False] an exception was caught and one line names
    the input path and the exception. *)
Lemma remove_background_false s o wb m w w' :
  remove_background s o wb m w = (false, w') →
  ∃ e, extends (fs w) (fs w')
       ∧ stdout w' = stdout w ++ ["Error processing " +:+ s +:+ ": " +:+ e].
Proof.
  unfold background_remover.remove_background, try_body. intros H.
  destruct (result_image (fs w) s wb m) as [img | e].
  - destruct (Image_save (fs w) (final_output_path s o) img)
      as [[u | e] fs1] eqn:Hsave; [done |].
    injection H as <-. exists e. split; [| done].
    by eapply Image_save_extends.
  - injection H as <-. exists e. split; [apply extends_refl | done].
Qed.

Lemma output_path_for_extends a f fs o fs' :
  output_path_for OSError cwd a f fs = Ok (o, fs') → extends fs fs'.
Proof.
  unfold output_path_for.
  destruct (output a) as [[|c d]|]; try (intros [= _ <-]; apply extends_refl).
  destruct (mkdir_exist_ok OSError cwd fs (pathlib.of_str (String c d)))
    eqn:Hm; [| done].
  intros [= _ <-]. by eapply mkdir_extends.
Qed.

(** One turn of the loop, when it succeeds and when it fails. *)
Lemma iteration_spec a f w ok w' :
  iteration a f w = Ok (ok, w') →
  extends (fs w) (fs w')
  ∧ ∃ line, stdout w' = stdout w ++ [line]
    ∧ if ok then
        ∃ out, line = "Processed: " +:+ pathlib.to_str f +:+ " -> " +:+ out
               ∧ is_file cwd (fs w') (pathlib.of_str out) = true
      else
        ∃ e, line = "Error processing " +:+ pathlib.to_str f
                      +:+ ": " +:+ e.
Proof.
  unfold background_remover.iteration.
  destruct (output_path_for OSError cwd a f (fs w)) as [[o fs1] | e] eqn:Ho;
    [| done].
  apply output_path_for_extends in Ho. simpl.
  intros [= H]. destruct ok.
  - apply remove_background_true in H
      as (img & data & abs & _ & _ & Hr & Hs & Hfs & Hout).
    simpl in *. rewrite Hfs, Hout.
    destruct (written _ _ _ data Hr Hs) as (_ & _ & Hfile).
    split.
    + eapply extends_trans; [done |]. by apply extends_insert.
    + eauto.
  - apply remove_background_false in H as (e & Hext & Hout).
    simpl in *. split; [by eapply extends_trans | eauto].
Qed.

(** The loop counts the calls that returned [True]. *)
Lemma process_files_outcomes a files w oks w' c :
  outcomes a files w = Ok (oks, w') →
  process_files a files c w
  = (Ok (c + length (List.filter id oks)), w').
Proof.
  revert w oks c. induction files as [|f files IH]; intros w oks c; simpl.
  - intros [= <- <-]. simpl. by rewrite Nat.add_0_r.
  - destruct (iteration a f w) as [[ok w1] | e]; [| done]. simpl.
    destruct (outcomes a files w1) as [[oks' w2] | e] eqn:Hrest; [| done].
    simpl. intros [= <- <-]. rewrite (IH _ _ _ Hrest).
    destruct ok; simpl; do 2 f_equal; lia.
Qed.

(** What the whole loop leaves behind: one line per file, and a file at
    the output path of every success. *)
Lemma outcomes_spec a files w oks w' :
  outcomes a files w = Ok (oks, w') →
  length oks = length files
  ∧ extends (fs w) (fs w')
  ∧ (∀ line, line ∈ stdout w → line ∈ stdout w')
  ∧ ∀ (j : nat) f (ok : bool), files !! j = Some f → oks !! j = Some ok →
      if ok then
        ∃ out, ("Processed: " +:+ pathlib.to_str f +:+ " -> " +:+ out)
                 ∈ stdout w'
               ∧ is_file cwd (fs w') (pathlib.of_str out) = true
      else
        ∃ e, ("Error processing " +:+ pathlib.to_str f +:+ ": " +:+ e)
               ∈ stdout w'.
Proof.
  revert w oks. induction files as [|f files IH]; intros w oks; simpl.
  - intros [= <- <-]. split_and!; [done | apply extends_refl | done |].
    intros j f ok Hj. by rewrite lookup_nil in Hj.
  - destruct (iteration a f w) as [[ok w1] | e] eqn:Hit; [| done]. simpl.
    destruct (outcomes a files w1) as [[oks' w2] | e] eqn:Hrest; [| done].
    simpl. intros [= <- <-].
    apply iteration_spec in Hit as (Hext1 & line & Hout1 & Hline).
    destruct (IH _ _ Hrest) as (Hlen & Hext2 & Hkeep & Hall).
    split_and!.
    + simpl. by rewrite Hlen.
    + by eapply extends_trans.
    + intros l Hl. apply Hkeep. rewrite Hout1. apply elem_of_app. by left.
    + intros [|j] g b Hf Hb; simpl in *.
      * injection Hf as <-. injection Hb as <-.
        assert (line ∈ stdout w2) as Hin.
        { apply Hkeep. rewrite Hout1. apply elem_of_app. right. by left. }
        destruct ok.
        -- destruct Hline as (out & -> & Hfile). exists out.
           split; [done |]. by eapply is_file_extends.
        -- destruct Hline as (e & ->). by exists e.
      * by eapply Hall.
Qed.

End processing_facts.

(** ** The claims about processing *)

Section processing_claims.
Import os os_facts pathlib_facts PIL_facts.
Local Open Scope list_scope.

Variable OSError : os.errno → string → exn.
Variable cwd : list string.
Variable Image_decode : list Byte.byte → result PIL.Image.
Variable Image_encode : string → PIL.Image → encoding.
Variable Session : Type.
Variable new_session : string → result Session.
Variable remove : PIL.Image → Session → result PIL.Image.

Local Abbreviation Image_open := (Image_open OSError cwd Image_decode).
Local Abbreviation result_image :=
  (result_image OSError cwd Image_decode Session new_session remove).
Local Abbreviation remove_background :=
  (remove_background OSError cwd Image_decode Image_encode
     Session new_session remove).
Local Abbreviation iteration :=
  (iteration OSError cwd Image_decode Image_encode Session new_session remove).
Local Abbreviation process_files :=
  (process_files OSError cwd Image_decode Image_encode Session new_session remove).
Local Abbreviation outcomes :=
  (outcomes OSError cwd Image_decode Image_encode Session new_session remove).
Local Abbreviation main :=
  (main OSError cwd Image_decode Image_encode Session new_session remove).

Lemma all_true_count (oks : list bool) :
  (∀ j, j < length oks → oks !! j = Some true) →
  length (List.filter id oks) = length oks.
Proof.
  induction oks as [|b oks IH]; intros H; [done |].
  assert (b = true) as -> by (specialize (H 0); simpl in H; injection H; [done | lia]).
  simpl. f_equal. apply IH. intros j Hj. apply (H (S j)). simpl. lia.
Qed.

Lemma one_false_count (oks : list bool) i :
  oks !! i = Some false →
  (∀ j, j ≠ i → j < length oks → oks !! j = Some true) →
  length (List.filter id oks) = length oks - 1.
Proof.
  revert i. induction oks as [|b oks IH]; intros i Hi H; [done |].
  destruct i as [|i]; simpl in Hi.
  - injection Hi as ->. simpl. rewrite all_true_count; [lia |].
    intros j Hj. apply (H (S j)); simpl; lia.
  - assert (b = true) as ->.
    { specialize (H 0). simpl in H. injection H; [done | lia..]. }
    simpl. rewrite (IH i Hi).
    + apply lookup_lt_Some in Hi. lia.
    + intros j Hj Hlt. apply (H (S j)); simpl; lia.
Qed.


Lemma glob_cwd_empty fs :
  (∀ n, n ∈ listdir fs cwd → has_image_extension n = false) →
  glob_images cwd fs (pathlib.of_str ".") = [].
Proof.
  intros Hnone.
  destruct (glob_images cwd fs (pathlib.of_str ".")) as [|p l] eqn:E;
    [done |].
  assert (p ∈ glob_images cwd fs (pathlib.of_str ".")) as Hp
    by (rewrite E; by left).
  apply elem_of_glob_images in Hp as (abs & n & Hr & _ & Hn & Hm & _).
  injection Hr as <-. by rewrite (Hnone n Hn) in Hm.
Qed.


(** C10.  The output directory is made inside the loop and outside the
    [try]: when [mkdir] raises, the exception leaves [main].  Nothing
    has been processed: after the "Found" line no line is printed, not
    an error line for a file and not the summary, and the file system
    is as it was. *)
Theorem mkdir_failure_aborts a w files d e :
  output a = Some d → d ≠ "" →
  input_files cwd a (fs w) = Some files → files ≠ [] →
  mkdir_exist_ok OSError cwd (fs w) (pathlib.of_str d) = Raise e →
  main a w = Uncaught e (print (found (length files)) w).
Proof.
  intros Ho Hd Hfiles Hne Hm.
  unfold background_remover.main. rewrite Hfiles.
  destruct files as [|f rest]; [done |]. cbv zeta.
  simpl process_files. unfold background_remover.iteration, output_path_for.
  rewrite Ho. destruct d as [|c d]; [done |].
  simpl fs. by rewrite Hm.
Qed.

(** Two ways for it to raise: the path is an existing file, or its
    parent directory is missing. *)
Lemma mkdir_on_file fs p :
  is_file cwd fs p = true →
  mkdir_exist_ok OSError cwd fs p = Raise (OSError EEXIST (pathlib.to_str p)).
Proof.
  unfold is_file, node_at, mkdir_exist_ok.
  destruct (resolve cwd fs p) as [|abs]; [done |].
  by destruct (stat fs abs) as [[|]|].
Qed.

Lemma mkdir_no_parent fs p abs :
  resolve cwd fs p = inr abs → stat fs abs = None →
  stat fs (removelast abs) = None →
  mkdir_exist_ok OSError cwd fs p = Raise (OSError ENOENT (pathlib.to_str p)).
Proof. unfold mkdir_exist_ok. by intros -> -> ->. Qed.

(** C2.  When a file is processed successfully, what is written is the
    encoding of an image [saved] obtained from the segmentation result
    [seg].  With --transparent, [saved] is [seg] itself, alpha channel
    included.  Without it, [seg] has an alpha channel, [saved] has none
    and has the size of [seg], and [saved] is [seg] laid over white
    pixel by pixel with its own alpha as the mask; a pixel whose alpha
    is zero comes out white. *)
Theorem saved_image a f o w w' :
  remove_background (pathlib.to_str f) o (negb (transparent a)) (model a) w
  = (true, w') →
  let out := final_output_path (pathlib.to_str f) o in
  ∃ input session seg saved data abs,
    Image_open (fs w) (pathlib.to_str f) = Ok input
    ∧ new_session (model a) = Ok session
    ∧ remove input session = Ok seg
    ∧ Image_encode out saved = Encoded data
    ∧ resolve cwd (fs w) (pathlib.of_str out) = inr abs
    ∧ fs w' = <[abs := File data]> (fs w)
    ∧ (transparent a = true → saved = seg)
    ∧ (transparent a = false →
         PIL.has_alpha seg = true
         ∧ PIL.has_alpha saved = false
         ∧ PIL.size saved = PIL.size seg
         ∧ ∀ rows, seg = PIL.RGBA (PIL.size seg) rows →
             PIL.well_formed seg →
             saved = PIL.RGB (PIL.size seg) (map (map PIL.over_white) rows))
    ∧ ∀ p, PIL.alpha p = 0%Z → PIL.over_white p = PIL.white.
Proof.
  intros H out.
  apply remove_background_true in H
    as (saved & data & abs & Himg & Henc & Hr & _ & Hfs & _).
  fold out in Henc, Hr.
  unfold background_remover.result_image in Himg.
  destruct (Image_open (fs w) (pathlib.to_str f)) as [input |] eqn:Hopen;
    [| done].
  simpl in Himg.
  destruct (new_session (model a)) as [session |] eqn:Hsession; [| done].
  simpl in Himg.
  destruct (remove input session) as [seg |] eqn:Hseg; [| done].
  simpl in Himg.
  exists input, session, seg, saved, data, abs.
  split_and!; try done.
  - intros Ht. rewrite Ht in Himg. simpl in Himg. by injection Himg.
  - intros Ht. rewrite Ht in Himg. simpl in Himg.
    unfold on_background in Himg.
    destruct seg as [sz rows | sz rows]; [done |].
    pose proof Himg as Himg'.
    unfold PIL.paste in Himg. rewrite decide_True in Himg by done.
    simpl in Himg. injection Himg as Himg.
    split_and!; [done | by subst saved | by subst saved |].
    intros rows' Heq Hwf. simpl in Heq. injection Heq as <-. simpl.
    pose proof (paste_on_white sz rows Hwf) as E.
    change (PIL.paste (PIL.new_RGB sz PIL.white) (PIL.RGBA sz rows)
              (PIL.RGBA sz rows) = Ok saved) in Himg'.
    congruence.
  - apply over_white_transparent.
Qed.

Lemma no_bg_part p :
  pathlib.valid p →
  pathlib.valid_part
    (pathlib.stem p +:+ "_no_bg" +:+ pathlib.suffix p).
Proof.
  intros [Hs Hx]%valid_stem_suffix. split.
  - unfold pathlib.is_part. apply andb_true_iff.
    split; apply negb_true_iff, not_true_iff_false;
      intros E%fnmatch_facts.eqb_length;
      rewrite !length_app in E; simpl in E; lia.
  - by rewrite !mem_app, Hs, Hx.
Qed.

(** The derived output path, read back as a path: the directory of the
    input followed by the new name. *)
Lemma derived_output_path_parts s :
  let p := pathlib.of_str s in
  pathlib.of_str (derived_output_path s)
  = pathlib.mkPath (pathlib.root p)
      (removelast (pathlib.parts p)
         ++ [pathlib.stem p +:+ "_no_bg" +:+ pathlib.suffix p]).
Proof.
  intros p. unfold derived_output_path. fold p.
  pose proof (of_str_valid s) as Hp. fold p in Hp.
  pose proof (no_bg_part p Hp) as Hn.
  rewrite div_part by done.
  rewrite of_str_to_str; [done |].
  by apply (valid_snoc (pathlib.parent p)); [apply valid_parent |].
Qed.

(** C3.  When a file is processed successfully without an output path,
    the result is written at the derived path: in the directory of the
    input, under the name made of the stem of the input name, "_no_bg"
    and the suffix of the input name (stem and suffix together being the
    input name).  For photo.png this is photo_no_bg.png. *)
Theorem output_beside_input s wb m w w' :
  remove_background s None wb m w = (true, w') →
  let p := pathlib.of_str s in
  let out := pathlib.of_str (derived_output_path s) in
  pathlib.name out = pathlib.stem p +:+ "_no_bg" +:+ pathlib.suffix p
  ∧ pathlib.stem p +:+ pathlib.suffix p = pathlib.name p
  ∧ pathlib.parent out = pathlib.parent p
  ∧ (∃ abs data, resolve cwd (fs w') out = inr abs
                 ∧ stat (fs w') abs = Some (File data))
  ∧ last (stdout w')
    = Some ("Processed: " +:+ s +:+ " -> " +:+ derived_output_path s)
  ∧ derived_output_path "photo.png" = "photo_no_bg.png"
  ∧ derived_output_path "pics/photo.png" = "pics/photo_no_bg.png".
Proof.
  intros H p out.
  apply remove_background_true in H
    as (img & data & abs & _ & _ & Hr & Hs & Hfs & Hout).
  simpl in Hr. fold out in Hr.
  assert (out = pathlib.mkPath (pathlib.root p)
                  (removelast (pathlib.parts p)
                     ++ [pathlib.stem p +:+ "_no_bg" +:+ pathlib.suffix p]))
    as Hparts by apply derived_output_path_parts.
  split_and!.
  - by rewrite Hparts, name_snoc.
  - apply stem_suffix.
  - by rewrite Hparts, parent_snoc.
  - exists abs, data. rewrite Hfs.
    by destruct (written cwd _ _ _ data Hr Hs) as (? & ? & _).
  - rewrite Hout. apply last_snoc.
  - reflexivity.
  - reflexivity.
Qed.

Lemma valid_name_part f :
  pathlib.valid f → pathlib.parts f ≠ [] →
  pathlib.valid_part (pathlib.name f).
Proof.
  intros [_ Hps] Hne. unfold pathlib.name.
  induction Hps as [|c l Hc _ IH]; [done |].
  destruct l; [done |]. by apply IH.
Qed.

Lemma is_dir_extends fs fs' p :
  extends fs fs' → is_dir cwd fs p = true → is_dir cwd fs' p = true.
Proof.
  intros [HD _]. rewrite !(is_dir_spec cwd).
  intros (abs & Hr & Hs). exists abs.
  split; [by eapply resolve_keeps | by apply HD].
Qed.

(** What one turn of the loop does when -o names a directory. *)
Lemma iteration_output a f d w w' :
  output a = Some d → d ≠ "" →
  iteration a f w = Ok (true, w') →
  let dir := pathlib.of_str d in
  let out :=
    pathlib.to_str
      (pathlib.div dir (pathlib.stem f +:+ pathlib.suffix f)) in
  ∃ fs1 img data abs,
    mkdir_exist_ok OSError cwd (fs w) dir = Ok fs1
    ∧ result_image fs1 (pathlib.to_str f) (negb (transparent a)) (model a)
      = Ok img
    ∧ Image_encode out img = Encoded data
    ∧ resolve cwd fs1 (pathlib.of_str out) = inr abs
    ∧ stat fs1 abs ≠ Some Dir
    ∧ fs w' = <[abs := File data]> fs1
    ∧ stdout w'
      = stdout w ++ ["Processed: " +:+ pathlib.to_str f +:+ " -> " +:+ out].
Proof.
  intros Ho Hd H dir out.
  unfold background_remover.iteration, output_path_for in H.
  rewrite Ho in H. destruct d as [|c d]; [done |].
  fold dir in H.
  destruct (mkdir_exist_ok OSError cwd (fs w) dir) as [fs1 |] eqn:Hm;
    [| done].
  simpl in H. injection H as H.
  apply remove_background_true in H
    as (img & data & abs & ? & ? & ? & ? & ? & ?).
  by exists fs1, img, data, abs.
Qed.

(** C4.  When -o names a directory and a file is processed
    successfully, the result is written in that directory under the
    name of the input, which is its stem followed by its suffix; no
    "_no_bg" is added.  The directory exists afterwards. *)
Theorem output_in_directory a f d w w' :
  output a = Some d → d ≠ "" →
  pathlib.valid f → pathlib.parts f ≠ [] →
  iteration a f w = Ok (true, w') →
  let dir := pathlib.of_str d in
  ∃ out,
    out = pathlib.to_str
            (pathlib.div dir (pathlib.stem f +:+ pathlib.suffix f))
    ∧ pathlib.stem f +:+ pathlib.suffix f = pathlib.name f
    ∧ pathlib.parent (pathlib.of_str out) = dir
    ∧ pathlib.name (pathlib.of_str out) = pathlib.name f
    ∧ is_dir cwd (fs w') dir = true
    ∧ (∃ abs data, resolve cwd (fs w') (pathlib.of_str out) = inr abs
                   ∧ stat (fs w') abs = Some (File data))
    ∧ last (stdout w')
      = Some ("Processed: " +:+ pathlib.to_str f +:+ " -> " +:+ out).
Proof.
  intros Ho Hd Hf Hne H dir.
  apply (iteration_output a f d) in H
    as (fs1 & img & data & abs & Hm & _ & _ & Hr & Hs & Hfs & Hout);
    [| done..].
  fold dir in Hm, Hr, Hout.
  set (out := pathlib.to_str
                (pathlib.div dir (pathlib.stem f +:+ pathlib.suffix f)))
    in *.
  assert (pathlib.of_str out
          = pathlib.mkPath (pathlib.root dir)
              (pathlib.parts dir ++ [pathlib.name f])) as Hparts.
  { unfold out. rewrite stem_suffix.
    pose proof (valid_name_part f Hf Hne) as Hn.
    rewrite div_part by done. apply of_str_to_str.
    apply valid_snoc; [apply of_str_valid | done]. }
  exists out. split_and!.
  - done.
  - apply stem_suffix.
  - rewrite Hparts, parent_snoc. by destruct dir.
  - by rewrite Hparts, name_snoc.
  - rewrite Hfs. eapply is_dir_extends; [by apply extends_insert |].
    by eapply mkdir_is_dir.
  - exists abs, data. rewrite Hfs.
    by destruct (written cwd _ _ _ data Hr Hs) as (? & ? & _).
  - rewrite Hout. apply last_snoc.
Qed.

Lemma mkdir_existing fs p :
  is_dir cwd fs p = true → mkdir_exist_ok OSError cwd fs p = Ok fs.
Proof.
  intros (abs & Hr & Hs)%(is_dir_spec cwd).
  unfold mkdir_exist_ok. by rewrite Hr, Hs.
Qed.

Lemma same_name_same_stem f1 f2 :
  pathlib.name f1 = pathlib.name f2 →
  pathlib.stem f1 +:+ pathlib.suffix f1
  = pathlib.stem f2 +:+ pathlib.suffix f2.
Proof. intros E. by rewrite !stem_suffix. Qed.


End processing_claims.

(** ** Concrete runs *)

Module example_runs.
Import os example.
Local Open Scope list_scope.

Example run_default :
  run (explicit []) start
  = Returned
      (mkWorld
         (<[["home"; "a_no_bg.png"] := File [Byte.xf0; Byte.xf0; Byte.xf0;
                                             Byte.xff; Byte.xff; Byte.xff]]>
            (<[["home"; "c_no_bg.jpg"] := File [Byte.xff; Byte.xff; Byte.xff;
                                               Byte.xef; Byte.xef; Byte.xef]]>
               disk))
         ["Found 3 image files to process";
          "Processed: c.jpg -> c_no_bg.jpg";
          "Error processing b.png: cannot identify image file";
          "Processed: a.png -> a_no_bg.png";
          summary 2 3]).
Proof. vm_compute. reflexivity. Qed.

(** *** C1: b.png cannot be decoded, a.png and c.jpg go through *)


(** *** C2: a.png on white, and kept transparent *)

Lemma saved_image_witness :
  call "a.png" None true "u2net" start
  = (true, after_call (call "a.png" None true "u2net" start))
  ∧ stat (fs (after_call (call "a.png" None true "u2net" start)))
         ["home"; "a_no_bg.png"]
    = Some (File [Byte.xf0; Byte.xf0; Byte.xf0; Byte.xff; Byte.xff; Byte.xff])
  ∧ stat (fs (after_call (call "a.png" None false "u2net" start)))
         ["home"; "a_no_bg.png"]
    = Some (File [Byte.xf0; Byte.xf0; Byte.xf0; Byte.xff;
                  Byte.x0f; Byte.x0f; Byte.x0f; Byte.x00]).
Proof.
  pose proof (saved_image OSError cwd decode encode () session segment
                (explicit ["a.png"]) (pathlib.of_str "a.png") None start
                (after_call (call "a.png" None true "u2net" start))) as Hw.
  pose proof (saved_image OSError cwd decode encode () session segment
                transparent_args (pathlib.of_str "a.png") None start
                (after_call (call "a.png" None false "u2net" start))) as Ht.
  assert (call "a.png" None true "u2net" start
          = (true, after_call (call "a.png" None true "u2net" start))) as H1
    by (vm_compute; reflexivity).
  assert (call "a.png" None false "u2net" start
          = (true, after_call (call "a.png" None false "u2net" start))) as H2
    by (vm_compute; reflexivity).
  specialize (Hw H1). specialize (Ht H2). clear Hw Ht.
  split; [exact H1 |]. split; vm_compute; reflexivity.
Defined.

(** *** C3: photo-like names, no -o *)

Lemma output_beside_input_witness :
  pathlib.name (pathlib.of_str (derived_output_path "pics/a.png"))
  = "a_no_bg.png"
  ∧ pathlib.parent (pathlib.of_str (derived_output_path "pics/a.png"))
    = pathlib.of_str "pics".
Proof.
  destruct (output_beside_input OSError cwd decode encode () session segment
              "pics/a.png" true "u2net" start
              (after_call (call "pics/a.png" None true "u2net" start)))
    as (Hname & _ & Hparent & _).
  - vm_compute. reflexivity.
  - split; [exact Hname | exact Hparent].
Defined.

(** *** C4: -o out *)

Lemma output_in_directory_witness :
  ∃ out,
    out = "out/a.png"
    ∧ is_dir cwd
        (fs (after_turn (turn (into "out" ["pics/a.png"])
                           (pathlib.of_str "pics/a.png") start)))
        (pathlib.of_str "out") = true
    ∧ is_dir cwd disk (pathlib.of_str "out") = false.
Proof.
  destruct (output_in_directory OSError cwd decode encode () session segment
              (into "out" ["pics/a.png"]) (pathlib.of_str "pics/a.png")
              "out" start
              (after_turn (turn (into "out" ["pics/a.png"])
                             (pathlib.of_str "pics/a.png") start)))
    as (out & Hout & _ & _ & _ & Hdir & _).
  - reflexivity.
  - discriminate.
  - apply pathlib_facts.of_str_valid.
  - discriminate.
  - vm_compute. reflexivity.
  - exists out. split; [rewrite Hout; reflexivity |].
    split; [exact Hdir | reflexivity].
Defined.

(** *** C5: an explicit file of another kind *)

Lemma explicit_file_any_extension :
  ¬ (∀ cwd a fs files p,
       input_files cwd a fs = Some files → p ∈ files →
       has_image_extension (pathlib.name p) = true).
Proof.
  intros H.
  specialize (H cwd (explicit ["notes.txt"]) disk
                [pathlib.of_str "notes.txt"] (pathlib.of_str "notes.txt")).
  assert (has_image_extension (pathlib.name (pathlib.of_str "notes.txt"))
          = true) as E.
  { apply H; [vm_compute; reflexivity | by left]. }
  vm_compute in E. discriminate.
Qed.

Lemma candidate_recognized_or_explicit_file_witness :
  has_image_extension (pathlib.name (pathlib.of_str "notes.txt")) = false
  ∧ ∃ item, item ∈ ["notes.txt"; "pics"]
            ∧ pathlib.of_str "notes.txt" = pathlib.of_str item
            ∧ is_file cwd disk (pathlib.of_str "notes.txt") = true.
Proof.
  split; [reflexivity |].
  destruct (candidate_recognized_or_explicit_file cwd
              (explicit ["notes.txt"; "pics"]) disk
              (pathlib.of_str <$> ["notes.txt"; "pics/a.png"; "pics/d.JPEG"])
              (pathlib.of_str "notes.txt"))
    as [E | [_ H]].
  - vm_compute. reflexivity.
  - by left.
  - vm_compute in E. discriminate.
  - exact H.
Defined.

(** *** C6: the same file twice *)

Lemma repeated_argument_repeats :
  ¬ (∀ cwd a fs files, input_files cwd a fs = Some files → NoDup files).
Proof.
  intros H.
  specialize (H cwd (explicit ["a.png"; "a.png"]) disk
                [pathlib.of_str "a.png"; pathlib.of_str "a.png"]).
  assert (NoDup [pathlib.of_str "a.png"; pathlib.of_str "a.png"]) as E
    by (apply H; vm_compute; reflexivity).
  apply NoDup_cons in E as [E _]. apply E. by left.
Qed.

Lemma candidates_NoDup_witness :
  NoDup (pathlib.of_str <$> ["c.jpg"; "b.png"; "a.png"])
  ∧ NoDup (pathlib.of_str <$> ["a.png"; "pics/a.png"; "pics/d.JPEG"]).
Proof.
  split.
  - apply (candidates_NoDup cwd (mkArgs ["a.png"] None false true "u2net")
             disk).
    + vm_compute. reflexivity.
    + by left.
  - apply (candidates_NoDup cwd (explicit ["a.png"; "pics"]) disk).
    + vm_compute. reflexivity.
    + right; right. intros i j x y Hij Hx Hy p.
      change (input (explicit ["a.png"; "pics"])) with ["a.png"; "pics"]
        in Hx, Hy.
      destruct i as [|[|i]]; destruct j as [|[|j]];
        try discriminate Hx; try discriminate Hy;
        try (exfalso; apply Hij; reflexivity);
        injection Hx as <-; injection Hy as <-.
      * assert (expand_item cwd disk "a.png" = [pathlib.of_str "a.png"])
          as -> by (vm_compute; reflexivity).
        assert (expand_item cwd disk "pics"
                = pathlib.of_str <$> ["pics/a.png"; "pics/d.JPEG"]) as ->
          by (vm_compute; reflexivity).
        intros Hp Hq. apply list_elem_of_singleton in Hp. subst p.
        apply elem_of_cons in Hq as [Hq | Hq]; [discriminate Hq |].
        apply list_elem_of_singleton in Hq. discriminate Hq.
      * assert (expand_item cwd disk "a.png" = [pathlib.of_str "a.png"])
          as -> by (vm_compute; reflexivity).
        assert (expand_item cwd disk "pics"
                = pathlib.of_str <$> ["pics/a.png"; "pics/d.JPEG"]) as ->
          by (vm_compute; reflexivity).
        intros Hp Hq. apply list_elem_of_singleton in Hq. subst p.
        apply elem_of_cons in Hp as [Hp | Hp]; [discriminate Hp |].
        apply list_elem_of_singleton in Hp. discriminate Hp.
Defined.

(** *** C7: a directory without images *)


(** *** C8: the directory pics *)


(** *** C9: a.png and pics/a.png into out *)


(** *** C10: -o names an existing file *)

Lemma mkdir_failure_aborts_witness :
  run (into "blocker" ["a.png"; "c.jpg"]) start
  = Uncaught "[Errno 17] File exists: blocker"
      (mkWorld disk ["Found 2 image files to process"]).
Proof.
  unfold run.
  rewrite (mkdir_failure_aborts OSError cwd decode encode () session segment
             (into "blocker" ["a.png"; "c.jpg"]) start
             (pathlib.of_str <$> ["a.png"; "c.jpg"]) "blocker"
             "[Errno 17] File exists: blocker").
  - reflexivity.
  - reflexivity.
  - discriminate.
  - vm_compute. reflexivity.
  - discriminate.
  - vm_compute. reflexivity.
Defined.

End example_runs.

(** ** Further properties of the script *)

Section coverage.
Import os os_facts pathlib_facts PIL_facts.
Local Open Scope list_scope.

Variable OSError : os.errno → string → exn.
Variable cwd : list string.
Variable Image_decode : list Byte.byte → result PIL.Image.
Variable Image_encode : string → PIL.Image → encoding.
Variable Session : Type.
Variable new_session : string → result Session.
Variable remove : PIL.Image → Session → result PIL.Image.

Local Abbreviation Image_open := (Image_open OSError cwd Image_decode).
Local Abbreviation result_image :=
  (result_image OSError cwd Image_decode Session new_session remove).
Local Abbreviation remove_background :=
  (remove_background OSError cwd Image_decode Image_encode
     Session new_session remove).
Local Abbreviation iteration :=
  (iteration OSError cwd Image_decode Image_encode Session new_session remove).
Local Abbreviation process_files :=
  (process_files OSError cwd Image_decode Image_encode Session new_session remove).
Local Abbreviation outcomes :=
  (outcomes OSError cwd Image_decode Image_encode Session new_session remove).
Local Abbreviation main :=
  (main OSError cwd Image_decode Image_encode Session new_session remove).
Local Abbreviation output_ready := (output_ready cwd).

(** *** Inputs that cannot be read *)

(** X1.  An input path that names nothing: the call returns [False], the
    line printed carries the "no such file" error for that path, and the
    file system is as it was. *)
Theorem missing_input_reported s o wb m w abs :
  resolve cwd (fs w) (pathlib.of_str s) = inr abs →
  stat (fs w) abs = None →
  remove_background s o wb m w
  = (false,
     print ("Error processing " +:+ s +:+ ": " +:+ OSError ENOENT s) w).
Proof.
  intros Hr Hs.
  unfold background_remover.remove_background, try_body,
    background_remover.result_image, background_remover.Image_open, read.
  by rewrite Hr, Hs.
Qed.


(** *** Arguments *)

Lemma bind_nil_all {A B} (f : A → list B) (l : list A) :
  (∀ x, x ∈ l → f x = []) → l ≫= f = [].
Proof.
  induction l as [|x l IH]; intros H; csimpl; [done |].
  rewrite (H x) by by left. simpl. apply IH. intros y Hy. apply H. by right.
Qed.


Lemma iteration_fields a b f w :
  output a = output b → transparent a = transparent b → model a = model b →
  iteration a f w = iteration b f w.
Proof.
  intros Ho Ht Hm.
  unfold background_remover.iteration, output_path_for.
  by rewrite Ho, Ht, Hm.
Qed.

Lemma process_files_fields a b files c w :
  output a = output b → transparent a = transparent b → model a = model b →
  process_files a files c w = process_files b files c w.
Proof.
  intros Ho Ht Hm. revert c w.
  induction files as [|f files IH]; intros c w; simpl; [done |].
  rewrite (iteration_fields a b f w Ho Ht Hm).
  destruct (iteration b f w) as [[ok w'] |]; [apply IH | done].
Qed.

(** X4.  With --all the positional arguments play no part: two command
    lines with --all that agree on -o, -t and -m run alike, whatever
    paths they name. *)
Theorem all_ignores_positional a b w :
  all a = true → all b = true →
  output a = output b → transparent a = transparent b → model a = model b →
  main a w = main b w.
Proof.
  intros Ha Hb Ho Ht Hm.
  unfold background_remover.main, input_files. rewrite Ha, Hb.
  destruct (glob_images cwd (fs w) (pathlib.of_str ".")) as [|f files];
    [done |].
  cbv zeta. by rewrite (process_files_fields a b _ _ _ Ho Ht Hm).
Qed.

(** *** What a run leaves behind *)

Lemma process_files_extends a files c w r w' :
  process_files a files c w = (r, w') → extends (fs w) (fs w').
Proof.
  revert c w. induction files as [|f files IH]; intros c w; simpl.
  - intros [= _ <-]. apply extends_refl.
  - destruct (iteration a f w) as [[ok w1] | e] eqn:Hit.
    + apply (iteration_spec OSError cwd Image_decode Image_encode Session
               new_session remove) in Hit as [Hext _].
      intros H. eapply extends_trans; [done |]. by eapply IH.
    + intros [= _ <-]. apply extends_refl.
Qed.

(** X5.  Whatever way [main] ends, it has removed nothing: every file
    there was is still a file and every directory still a directory. *)
Theorem main_removes_nothing a w :
  ∀ w', (main a w = Returned w' ∨ ∃ e, main a w = Uncaught e w') →
        extends (fs w) (fs w').
Proof.
  intros w'. unfold background_remover.main.
  destruct (input_files cwd a (fs w)) as [[|f files] |].
  - intros [[= <-] | [e [=]]]. apply extends_refl.
  - cbv zeta.
    destruct (process_files a (f :: files) 0 (print (found (length (f :: files))) w))
      as [[c | e] w2] eqn:Hp;
      apply process_files_extends in Hp; simpl in Hp.
    + by intros [[= <-] | [e [=]]].
    + by intros [[=] | [e' [= _ <-]]].
  - intros [[= <-] | [e [=]]]. apply extends_refl.
Qed.

Lemma process_files_Ok a files c w n w' :
  process_files a files c w = (Ok n, w') →
  ∃ oks, outcomes a files w = Ok (oks, w')
         ∧ n = c + length (List.filter id oks).
Proof.
  revert c w. induction files as [|f files IH]; intros c w; simpl.
  - intros [= <- <-]. exists []. simpl. split; [done | lia].
  - destruct (iteration a f w) as [[ok w1] | e]; [| done]. simpl.
    intros (oks & -> & ->)%IH. exists (ok :: oks). simpl.
    split; [done |]. destruct ok; simpl; lia.
Qed.

Lemma outcomes_lines a files w oks w' :
  outcomes a files w = Ok (oks, w') →
  length (stdout w') = length (stdout w) + length files.
Proof.
  revert w oks. induction files as [|f files IH]; intros w oks; simpl.
  - intros [= _ <-]. lia.
  - destruct (iteration a f w) as [[ok w1] | e] eqn:Hit; [| done]. simpl.
    destruct (outcomes a files w1) as [[oks' w2] | e] eqn:Hrest; [| done].
    simpl. intros [= _ <-].
    apply (iteration_spec OSError cwd Image_decode Image_encode Session
             new_session remove) in Hit as (_ & line & Hout & _).
    rewrite (IH _ _ Hrest), Hout, List.length_app. simpl. lia.
Qed.

Lemma filter_length_le {A} (f : A → bool) (l : list A) :
  (length (List.filter f l) ≤ length l)%nat.
Proof.
  induction l as [|x l IH]; simpl; [done |]. destruct (f x); simpl; lia.
Qed.


(** *** The only exception that leaves [main] *)

Lemma remove_background_extends s o wb m w ok w' :
  remove_background s o wb m w = (ok, w') → extends (fs w) (fs w').
Proof.
  destruct ok; intros H.
  - apply (remove_background_true OSError cwd Image_decode Image_encode
             Session new_session remove) in H
      as (_ & data & abs & _ & _ & _ & Hs & -> & _).
    by apply extends_insert.
  - by apply (remove_background_false OSError cwd Image_decode Image_encode
                Session new_session remove) in H as (_ & ? & _).
Qed.

Lemma output_ready_extends a fs fs' :
  extends fs fs' → output_ready a fs → output_ready a fs'.
Proof.
  unfold background_remover.output_ready. destruct (output a) as [[|c d] |]; try done.
  apply is_dir_extends.
Qed.

Lemma iteration_ready a f w ok w' :
  iteration a f w = Ok (ok, w') → output_ready a (fs w').
Proof.
  unfold background_remover.iteration, output_path_for,
    background_remover.output_ready.
  destruct (output a) as [[|c d] |]; try done.
  destruct (mkdir_exist_ok OSError cwd (fs w) (pathlib.of_str (String c d)))
    as [fs1 |] eqn:Hm; [| done].
  simpl. intros [= H]. apply remove_background_extends in H.
  eapply is_dir_extends; [exact H |]. simpl. by eapply mkdir_is_dir.
Qed.

Lemma iteration_when_ready a f w :
  output_ready a (fs w) → ∃ ok w', iteration a f w = Ok (ok, w').
Proof.
  unfold background_remover.iteration, output_path_for,
    background_remover.output_ready.
  destruct (output a) as [[|c d] |]; simpl; intros H;
    try (eexists _, _; by rewrite <- surjective_pairing).
  rewrite (mkdir_existing OSError cwd _ _ H). simpl.
  eexists _, _. by rewrite <- surjective_pairing.
Qed.

Lemma process_files_when_ready a files c w :
  output_ready a (fs w) → ∃ n w', process_files a files c w = (Ok n, w').
Proof.
  revert c w. induction files as [|f files IH]; intros c w Hready; simpl.
  - eauto.
  - destruct (iteration_when_ready a f w Hready) as (ok & w1 & Hit).
    rewrite Hit. apply IH. by eapply iteration_ready.
Qed.


(** *** Where the result goes *)

Lemma walk_app fs cur ps qs :
  walk fs cur (ps ++ qs)
  = match walk fs cur ps with
    | inr c => walk fs c qs
    | inl e => inl e
    end.
Proof.
  revert cur. induction ps as [|p ps IH]; intros cur; simpl; [done |].
  destruct (stat fs cur) as [[|]|]; [done | apply IH | done].
Qed.

Lemma resolve_snoc fs r ps c :
  resolve cwd fs (pathlib.mkPath r (ps ++ [c]))
  = match resolve cwd fs (pathlib.mkPath r ps) with
    | inr c0 =>
        match stat fs c0 with
        | Some Dir =>
            inr (if String.eqb c ".." then removelast c0 else c0 ++ [c])
        | Some (File _) => inl ENOTDIR
        | None => inl ENOENT
        end
    | inl e => inl e
    end.
Proof.
  unfold resolve. simpl. rewrite walk_app.
  destruct (walk fs _ ps) as [e | c0]; [done |]. simpl.
  by destruct (stat fs c0) as [[|]|].
Qed.

Lemma no_bg_longer p :
  String.length (pathlib.stem p +:+ "_no_bg" +:+ pathlib.suffix p)
  = String.length (pathlib.name p) + 6.
Proof.
  rewrite <- (stem_suffix p), !length_app. simpl. lia.
Qed.

Lemma removelast_shorter {A} (l : list A) :
  (length (removelast l) ≤ length l)%nat.
Proof.
  induction l as [|x l IH]; [done |]. destruct l; simpl in *; lia.
Qed.

(** X8.  Without -o the result never lands on the input: after a
    successful call, what the input path names is what it named
    before. *)
Theorem input_untouched s wb m w w' abs :
  remove_background s None wb m w = (true, w') →
  resolve cwd (fs w) (pathlib.of_str s) = inr abs →
  stat (fs w') abs = stat (fs w) abs.
Proof.
  intros H Hin.
  apply (remove_background_true OSError cwd Image_decode Image_encode
           Session new_session remove) in H
    as (_ & data & out & _ & _ & Hout & Hs & -> & _).
  simpl in Hout.
  rewrite (derived_output_path_parts s) in Hout. cbv zeta in Hout.
  set (p := pathlib.of_str s) in *.
  set (n' := pathlib.stem p +:+ "_no_bg" +:+ pathlib.suffix p) in *.
  assert (String.eqb n' ".." = false) as Hdots.
  { apply String.eqb_neq. intros E.
    pose proof (no_bg_longer p) as L. fold n' in L. rewrite E in L.
    simpl in L. lia. }
  rewrite resolve_snoc, Hdots in Hout.
  destruct (resolve cwd (fs w) (pathlib.mkPath (pathlib.root p)
                                  (removelast (pathlib.parts p))))
    as [e | c0] eqn:Hdir; [done |].
  destruct (stat (fs w) c0) as [[|]|] eqn:Hc0; try done.
  injection Hout as <-.
  assert (abs ≠ c0 ++ [n']) as Hne.
  { destruct p as [r ps]. simpl in *.
    destruct ps as [|x ps'] using rev_ind.
    - simpl in Hdir. rewrite Hdir in Hin. injection Hin as <-.
      intros E. apply (f_equal length) in E.
      rewrite List.length_app in E. simpl in E. lia.
    - rewrite removelast_last in Hdir.
      rewrite resolve_snoc, Hdir, Hc0 in Hin. injection Hin as <-.
      destruct (String.eqb x "..").
      + intros E. apply (f_equal length) in E.
        rewrite List.length_app in E. simpl in E.
        pose proof (removelast_shorter c0). lia.
      + intros E. apply app_inv_head in E. injection E as E.
        pose proof (no_bg_longer (pathlib.mkPath r (ps' ++ [x]))) as L.
        fold n' in L. rewrite name_snoc in L. rewrite <- E in L. lia. }
  assert (c0 ++ [n'] ≠ []) as Hnil by (by destruct c0).
  rewrite stat_insert by done. by rewrite decide_False.
Qed.

Lemma snoc_last (l : list string) :
  l ≠ [] → removelast l ++ [List.last l ""] = l.
Proof. intros H. symmetry. by apply app_removelast_last. Qed.

(** X9.  When -o names the directory the input is in, the output path is
    the input path: after a successful turn the input file holds the
    result. *)
Theorem output_onto_input a f d w w' :
  output a = Some d → d ≠ "" →
  pathlib.valid f → pathlib.parts f ≠ [] →
  pathlib.of_str d = pathlib.parent f →
  iteration a f w = Ok (true, w') →
  ∃ fs1 img data abs,
    mkdir_exist_ok OSError cwd (fs w) (pathlib.of_str d) = Ok fs1
    ∧ result_image fs1 (pathlib.to_str f) (negb (transparent a)) (model a)
      = Ok img
    ∧ Image_encode (pathlib.to_str f) img = Encoded data
    ∧ resolve cwd (fs w') f = inr abs
    ∧ stat (fs w') abs = Some (File data)
    ∧ last (stdout w')
      = Some ("Processed: " +:+ pathlib.to_str f +:+ " -> "
                +:+ pathlib.to_str f).
Proof.
  intros Ho Hd Hf Hne Hdir H.
  apply (iteration_output OSError cwd Image_decode Image_encode Session
           new_session remove a f d) in H
    as (fs1 & img & data & abs & Hm & Hi & He & Hr & Hs & Hfs & Hout);
    [| done..].
  assert (pathlib.div (pathlib.of_str d)
            (pathlib.stem f +:+ pathlib.suffix f) = f) as Hsame.
  { rewrite stem_suffix, div_part by by apply valid_name_part.
    rewrite Hdir. destruct f as [r ps]. unfold pathlib.name. simpl in *.
    by rewrite snoc_last. }
  rewrite Hsame in He, Hr, Hout.
  rewrite (of_str_to_str f Hf) in Hr.
  destruct (written cwd _ _ _ data Hr Hs) as (Hr' & Hs' & _).
  rewrite <- Hfs in Hr', Hs'.
  exists fs1, img, data, abs. split_and!; try done.
  rewrite Hout. apply last_snoc.
Qed.

Lemma valid_partb_spec c : pathlib.valid_partb c = true → pathlib.valid_part c.
Proof.
  unfold pathlib.valid_partb, pathlib.valid_part.
  intros [? ?%negb_true_iff]%andb_true_iff. done.
Qed.

(** A file system is well named when a check of its entries says so. *)
Lemma well_named_check (fs : FS) :
  forallb (λ kv, forallb pathlib.valid_partb kv.1) (map_to_list fs) = true →
  well_named fs.
Proof.
  intros H k [v Hk]. apply elem_of_map_to_list in Hk.
  rewrite forallb_forall in H.
  specialize (H (k, v)). simpl in H.
  rewrite <- list_elem_of_In in H. specialize (H Hk).
  rewrite forallb_forall in H. apply Forall_forall.
  intros c Hc. apply valid_partb_spec, H. by apply list_elem_of_In.
Qed.

(** X10.  [main] hands [remove_background] the string of a path and
    [remove_background] reads it back: on a well-named file system this
    gives the path [main] had. *)
Theorem candidate_read_back a fs files f :
  well_named fs → stat fs cwd = Some Dir →
  input_files cwd a fs = Some files → f ∈ files →
  pathlib.of_str (pathlib.to_str f) = f.
Proof.
  intros Hwn Hcwd Hfiles Hf. apply of_str_to_str.
  by destruct (candidates_have_names cwd a fs files f Hwn Hcwd Hfiles Hf).
Qed.

Lemma extension_not_dots n :
  has_image_extension n = true → String.eqb n ".." = false.
Proof.
  intros H. destruct (String.eqb n "..") eqn:E; [| done].
  apply String.eqb_eq in E. subst n. discriminate H.
Qed.

(** X11.  Every candidate names something that exists when the list is
    made: a file for a positional file argument, an entry of the globbed
    directory otherwise. *)
Theorem candidates_exist a fs files f :
  input_files cwd a fs = Some files → f ∈ files →
  is_Some (node_at cwd fs f).
Proof.
  intros Hfiles Hf.
  assert (∀ d, f ∈ glob_images cwd fs d → is_Some (node_at cwd fs f))
    as Hglob.
  { intros d (abs & n & Hr & Hs & Hn & Hext & ->)%elem_of_glob_images.
    unfold node_at, child. destruct d as [r ps]. simpl.
    rewrite resolve_snoc, Hr, Hs, (extension_not_dots n Hext).
    apply elem_of_listdir in Hn. by destruct abs. }
  unfold input_files in Hfiles. destruct (all a).
  { injection Hfiles as <-. by eapply Hglob. }
  destruct (input a) as [|item items].
  { destruct (glob_images cwd fs (pathlib.of_str ".")) eqn:Hg; [done |].
    injection Hfiles as <-. eapply Hglob. by rewrite Hg. }
  assert (files = (item :: items) ≫= expand_item cwd fs) as ->
    by (by injection Hfiles).
  apply list_elem_of_bind in Hf as (it & Hf & _).
  unfold expand_item in Hf.
  destruct (is_file cwd fs (pathlib.of_str it)) eqn:Hfile.
  - apply list_elem_of_singleton in Hf as ->.
    unfold is_file in Hfile.
    by destruct (node_at cwd fs (pathlib.of_str it)).
  - destruct (is_dir cwd fs (pathlib.of_str it)).
    + by eapply Hglob.
    + by apply elem_of_nil in Hf.
Qed.

(** *** How the result is named *)

Lemma rfind_None c s : str.mem c s = false → str.rfind c s = None.
Proof.
  induction s as [|d s IH]; simpl; [done |].
  intros [-> H]%orb_false_iff. by rewrite IH.
Qed.

Lemma rfind_last_dot base ext :
  str.mem "." ext = false →
  str.rfind "." (base +:+ String "." ext) = Some (String.length base).
Proof.
  intros H. induction base as [|c base IH].
  - rewrite app_nil_l. simpl. by rewrite rfind_None.
  - rewrite app_cons. simpl. by rewrite IH.
Qed.

Lemma take_app (s t : string) : str.take (String.length s) (s +:+ t) = s.
Proof.
  induction s as [|c s IH]; [by destruct t |].
  rewrite app_cons. simpl. by rewrite IH.
Qed.

Lemma cut_dotted base ext :
  base ≠ "" → ext ≠ "" → str.mem "." ext = false →
  pathlib.cut (base +:+ String "." ext) = Some (String.length base).
Proof.
  intros Hb He Hm. unfold pathlib.cut. rewrite rfind_last_dot by done.
  rewrite length_app. simpl.
  assert ((0 <? String.length base)%nat = true) as ->.
  { apply Nat.ltb_lt. destruct base; [done | simpl; lia]. }
  assert ((String.length base
           <? String.length base + S (String.length ext) - 1)%nat = true)
    as ->; [| done].
  apply Nat.ltb_lt. destruct ext; [done | simpl; lia].
Qed.

Lemma cut_undotted n :
  str.mem "." (str.drop 1 n) = false → pathlib.cut n = None.
Proof.
  unfold pathlib.cut. destruct n as [|c n]; [done |]. simpl.
  intros H. rewrite rfind_None by done. by destruct (Ascii.eqb c ".").
Qed.

Lemma derived_output_name s :
  pathlib.name (pathlib.of_str (derived_output_path s))
  = pathlib.stem (pathlib.of_str s) +:+ "_no_bg"
      +:+ pathlib.suffix (pathlib.of_str s).
Proof.
  rewrite (derived_output_path_parts s). cbv zeta. apply name_snoc.
Qed.

Lemma dotted_name_parts s base ext :
  pathlib.name (pathlib.of_str s) = base +:+ String "." ext →
  base ≠ "" → ext ≠ "" → str.mem "." ext = false →
  pathlib.stem (pathlib.of_str s) = base
  ∧ pathlib.suffix (pathlib.of_str s) = String "." ext.
Proof.
  intros Hn Hb He Hm. split.
  - unfold pathlib.stem. rewrite Hn, cut_dotted by done. apply take_app.
  - unfold pathlib.suffix. rewrite Hn, cut_dotted by done.
    apply fnmatch_facts.drop_app.
Qed.

(** X12.  For an input named base.ext, with a non-empty base and a
    non-empty extension without a dot, the result is named
    base_no_bg.ext: the marker goes before the last dot. *)
Theorem dotted_name_output s base ext :
  pathlib.name (pathlib.of_str s) = base +:+ String "." ext →
  base ≠ "" → ext ≠ "" → str.mem "." ext = false →
  pathlib.stem (pathlib.of_str s) = base
  ∧ pathlib.suffix (pathlib.of_str s) = String "." ext
  ∧ pathlib.name (pathlib.of_str (derived_output_path s))
    = base +:+ "_no_bg" +:+ String "." ext.
Proof.
  intros Hn Hb He Hm.
  destruct (dotted_name_parts s base ext Hn Hb He Hm) as [Hstem Hsuffix].
  split_and!; [done.. |].
  by rewrite derived_output_name, Hstem, Hsuffix.
Qed.

(** X13.  For an input whose name has no dot after its first character
    (README, .bashrc), there is no extension to keep: the result is the
    name followed by "_no_bg". *)
Theorem undotted_name_output s :
  str.mem "." (str.drop 1 (pathlib.name (pathlib.of_str s))) = false →
  pathlib.name (pathlib.of_str (derived_output_path s))
  = pathlib.name (pathlib.of_str s) +:+ "_no_bg".
Proof.
  intros H. rewrite derived_output_name.
  unfold pathlib.stem, pathlib.suffix. by rewrite (cut_undotted _ H).
Qed.

Lemma sapp_assoc (a b c : string) : (a +:+ b) +:+ c = a +:+ (b +:+ c).
Proof. induction a as [|x a IH]; [done |]. by rewrite !app_cons, IH. Qed.

Lemma extension_shape e :
  e ∈ extensions → ∃ x, e = String "." x ∧ x ≠ "" ∧ str.mem "." x = false.
Proof.
  unfold extensions. intros H.
  repeat (apply elem_of_cons in H as [-> | H]; [by eexists |]).
  by apply elem_of_nil in H.
Qed.

Lemma has_image_extension_spec n :
  has_image_extension n = true
  ↔ ∃ pre e, e ∈ extensions ∧ n = pre +:+ e.
Proof.
  unfold has_image_extension. rewrite existsb_exists. split.
  - intros (e & He%list_elem_of_In & [pre ->]%fnmatch_facts.endswith_spec).
    eauto.
  - intros (pre & e & He & ->). exists e.
    rewrite <- list_elem_of_In. split; [done |].
    apply fnmatch_facts.endswith_spec. eauto.
Qed.

(** X14.  In a directory that was globbed, the result of a successful
    call without -o is found by the next glob of that directory: a
    second run takes the results of the first for inputs.  (The entry
    must have a name before its extension.) *)
Theorem result_is_next_candidate d n wb m w w' :
  pathlib.valid d → pathlib.valid_part n →
  os.child d n ∈ glob_images cwd (fs w) d →
  n ∉ extensions →
  remove_background (pathlib.to_str (os.child d n)) None wb m w = (true, w') →
  ∃ n', pathlib.of_str
          (derived_output_path (pathlib.to_str (os.child d n)))
        = os.child d n'
        ∧ n' ≠ n
        ∧ os.child d n' ∈ glob_images cwd (fs w') d.
Proof.
  intros Hd Hn Hcand Hbare H.
  apply elem_of_glob_images in Hcand as (abs & n0 & Hr & Hs & _ & Hext & E).
  apply child_inj in E as <-.
  apply has_image_extension_spec in Hext as (pre & e & He & ->).
  destruct (extension_shape e He) as (x & -> & Hx & Hdot).
  assert (pre ≠ "") as Hpre by (intros ->; by rewrite app_nil_l in Hbare).
  set (f := os.child d (pre +:+ String "." x)) in *.
  assert (pathlib.of_str (pathlib.to_str f) = f) as Hback.
  { apply of_str_to_str. by apply valid_snoc. }
  assert (pathlib.name f = pre +:+ String "." x) as Hname
    by apply name_snoc.
  assert (pathlib.name (pathlib.of_str (pathlib.to_str f))
          = pre +:+ String "." x) as Hname' by (by rewrite Hback).
  destruct (dotted_name_parts (pathlib.to_str f) pre x Hname' Hpre Hx Hdot)
    as (Hstem & Hsuffix).
  set (n' := pre +:+ "_no_bg" +:+ String "." x).
  assert (pathlib.of_str (derived_output_path (pathlib.to_str f))
          = os.child d n') as Hout.
  { rewrite (derived_output_path_parts (pathlib.to_str f)). cbv zeta.
    rewrite Hstem, Hsuffix, Hback. unfold f, os.child. simpl.
    by rewrite removelast_last. }
  assert (has_image_extension n' = true) as Hext'.
  { apply has_image_extension_spec. exists (pre +:+ "_no_bg"), (String "." x).
    split; [done |]. unfold n'. symmetry. apply sapp_assoc. }
  apply (remove_background_true OSError cwd Image_decode Image_encode
           Session new_session remove) in H
    as (_ & data & out & _ & _ & Hro & Hso & -> & _).
  simpl in Hro. rewrite Hout in Hro.
  unfold os.child in Hro. destruct d as [r ps]. simpl in *.
  rewrite resolve_snoc, Hr, Hs, (extension_not_dots n' Hext') in Hro.
  injection Hro as <-.
  exists n'. split_and!; [done | |].
  - intros E. apply (f_equal String.length) in E. unfold n' in E.
    rewrite !length_app in E. simpl in E. lia.
  - apply elem_of_glob_images. exists abs, n'. split_and!; try done.
    + eapply resolve_keeps; [| done]. by apply keeps_dirs_insert.
    + by apply keeps_dirs_insert.
    + apply elem_of_listdir. rewrite lookup_insert_eq. eauto.
Qed.

(** *** Compositing *)

(** X15.  With a hard mask (every alpha 0 or 255) putting the result on
    white changes no colour: a clear pixel becomes white, an opaque one
    keeps its red, green and blue. *)
Theorem hard_mask_exact sz rows :
  PIL.well_formed (PIL.RGBA sz rows) →
  Forall (Forall PIL.opaque_or_clear) rows →
  on_background true (PIL.RGBA sz rows)
  = Ok (PIL.RGB sz
          (map (map (λ p, if decide (PIL.alpha p = 0%Z) then PIL.white
                          else PIL.drop_alpha p))
               rows)).
Proof.
  intros Hwf Hrows. unfold on_background.
  change (PIL.paste (PIL.new_RGB sz PIL.white) (PIL.RGBA sz rows)
            (PIL.RGBA sz rows) = Ok (PIL.RGB sz
              (map (map (λ p, if decide (PIL.alpha p = 0%Z) then PIL.white
                              else PIL.drop_alpha p)) rows))).
  rewrite (paste_on_white sz rows Hwf). do 2 f_equal.
  apply Forall_fmap_ext. eapply Forall_impl; [exact Hrows |].
  intros row Hrow. apply Forall_fmap_ext. eapply Forall_impl; [exact Hrow |].
  intros p ([H0 | H255] & Hr & Hg & Hb); simpl.
  - rewrite decide_True by done. by apply over_white_transparent.
  - rewrite decide_False by lia. by apply over_white_opaque.
Qed.

Lemma BLEND_band m a b :
  PIL.band m → PIL.band a → PIL.band b → PIL.band (PIL.BLEND m a b).
Proof.
  unfold PIL.band, PIL.BLEND, PIL.DIV255. intros Hm Ha Hb. cbv zeta.
  assert (0 ≤ a * (255 - m) + b * m ≤ 65025)%Z as Hx by nia.
  revert Hx. generalize (a * (255 - m) + b * m)%Z. intros x Hx.
  rewrite !Z.shiftr_div_pow2 by lia. change (2 ^ 8)%Z with 256%Z.
  Z.div_mod_to_equations. lia.
Qed.

(** X16.  Putting a well-formed 8-bit result on white gives a well-formed
    image of the same size whose bands are 8-bit again, whatever the
    alpha values. *)
Theorem on_white_well_formed sz rows saved :
  PIL.well_formed (PIL.RGBA sz rows) →
  Forall (Forall PIL.eight_bit) rows →
  on_background true (PIL.RGBA sz rows) = Ok saved →
  PIL.well_formed saved
  ∧ PIL.size saved = sz
  ∧ ∃ rows', saved = PIL.RGB sz rows'
             ∧ Forall (Forall (λ q, PIL.band q.1.1 ∧ PIL.band q.1.2
                                    ∧ PIL.band q.2)) rows'.
Proof.
  intros Hwf Hrows H. unfold on_background in H.
  change (PIL.paste (PIL.new_RGB sz PIL.white) (PIL.RGBA sz rows)
            (PIL.RGBA sz rows) = Ok saved) in H.
  rewrite (paste_on_white sz rows Hwf) in H. injection H as <-.
  destruct sz as [w h]. destruct Hwf as [Hh Hw].
  split_and!; [| done |].
  - split; [by rewrite length_map |].
    apply Forall_fmap. eapply Forall_impl; [exact Hw |].
    intros row Hrow. simpl. by rewrite length_map.
  - eexists. split; [done |].
    apply Forall_fmap. eapply Forall_impl; [exact Hrows |].
    intros row Hrow. simpl.
    apply Forall_fmap. eapply Forall_impl; [exact Hrow |].
    intros [[[r g] b] al] (Hr & Hg & Hb & Ha). simpl in *.
    unfold PIL.over_white, PIL.white. simpl.
    split_and!; apply BLEND_band; try done; unfold PIL.band; lia.
Qed.

End coverage.

(** ** Further concrete runs *)

Module coverage_runs.
Import os example.
Local Open Scope list_scope.

Lemma missing_input_reported_witness :
  call "ghost.png" None true "u2net" start
  = (false,
     print ("Error processing ghost.png: "
              +:+ "[Errno 2] No such file or directory: ghost.png") start).
Proof.
  unfold call.
  rewrite (missing_input_reported OSError cwd decode encode () session
             segment "ghost.png" None true "u2net" start
             ["home"; "ghost.png"]).
  - reflexivity.
  - vm_compute. reflexivity.
  - vm_compute. reflexivity.
Defined.



Lemma all_ignores_positional_witness :
  run all_there start = run all_here start.
Proof.
  unfold run.
  apply (all_ignores_positional OSError cwd decode encode () session segment
           all_there all_here start); reflexivity.
Defined.

Lemma main_removes_nothing_witness : extends disk (fs default_end).
Proof.
  apply (main_removes_nothing OSError cwd decode encode () session segment
           (explicit []) start default_end).
  left. vm_compute. reflexivity.
Defined.



Lemma input_untouched_witness :
  stat (fs (after_call (call "a.png" None true "u2net" start)))
       ["home"; "a.png"]
  = Some (File [Byte.xf0]).
Proof.
  rewrite (input_untouched OSError cwd decode encode () session segment
             "a.png" true "u2net" start
             (after_call (call "a.png" None true "u2net" start))
             ["home"; "a.png"]).
  - vm_compute. reflexivity.
  - vm_compute. reflexivity.
  - vm_compute. reflexivity.
Defined.

Lemma output_onto_input_witness :
  ∃ data, stat (fs (after_turn (turn in_place (pathlib.of_str "pics/a.png")
                                  start)))
               ["home"; "pics"; "a.png"]
          = Some (File data)
          ∧ data ≠ [Byte.x10].
Proof.
  destruct (output_onto_input OSError cwd decode encode () session segment
              in_place (pathlib.of_str "pics/a.png") "pics" start
              (after_turn (turn in_place (pathlib.of_str "pics/a.png") start)))
    as (fs1 & img & data & abs & _ & _ & _ & Hr & Hs & _).
  - reflexivity.
  - discriminate.
  - apply pathlib_facts.of_str_valid.
  - discriminate.
  - vm_compute. reflexivity.
  - vm_compute. reflexivity.
  - exists [Byte.xff; Byte.xff; Byte.xff; Byte.xef; Byte.xef; Byte.xef].
    split; [vm_compute; reflexivity | discriminate].
Defined.

Lemma candidate_read_back_witness :
  pathlib.of_str (pathlib.to_str (os.child (pathlib.of_str "pics") "d.JPEG"))
  = os.child (pathlib.of_str "pics") "d.JPEG".
Proof.
  apply (candidate_read_back cwd (explicit ["pics"]) disk
           (os.child (pathlib.of_str "pics") <$> ["a.png"; "d.JPEG"])).
  - apply well_named_check. vm_compute. reflexivity.
  - vm_compute. reflexivity.
  - vm_compute. reflexivity.
  - right. left.
Defined.

Lemma candidates_exist_witness :
  is_Some (node_at cwd disk (pathlib.of_str "c.jpg")).
Proof.
  apply (candidates_exist cwd (explicit []) disk
           (pathlib.of_str <$> ["c.jpg"; "b.png"; "a.png"])).
  - vm_compute. reflexivity.
  - left.
Defined.

Lemma dotted_name_output_witness :
  pathlib.name
    (pathlib.of_str (derived_output_path "pics/photo.tar.gz"))
  = "photo.tar_no_bg.gz".
Proof.
  destruct (dotted_name_output "pics/photo.tar.gz" "photo.tar" "gz")
    as (_ & _ & H).
  - reflexivity.
  - discriminate.
  - discriminate.
  - reflexivity.
  - exact H.
Defined.

Lemma undotted_name_output_witness :
  pathlib.name (pathlib.of_str (derived_output_path "docs/.bashrc"))
  = ".bashrc_no_bg".
Proof.
  apply (undotted_name_output "docs/.bashrc"). reflexivity.
Defined.

Lemma result_is_next_candidate_witness :
  ∃ n', n' ≠ "a.png"
        ∧ os.child (pathlib.of_str "pics") n'
          ∈ glob_images cwd
              (fs (after_call (call "pics/a.png" None true "u2net" start)))
              (pathlib.of_str "pics").
Proof.
  destruct (result_is_next_candidate OSError cwd decode encode () session
              segment (pathlib.of_str "pics") "a.png" true "u2net" start
              (after_call (call "pics/a.png" None true "u2net" start)))
    as (n' & _ & Hne & Hin).
  - apply pathlib_facts.of_str_valid.
  - split; reflexivity.
  - assert (glob_images cwd (fs start) (pathlib.of_str "pics")
            = os.child (pathlib.of_str "pics") <$> ["a.png"; "d.JPEG"]) as ->
      by (vm_compute; reflexivity).
    left.
  - unfold extensions. intros H.
    repeat (apply elem_of_cons in H as [H | H]; [discriminate H |]).
    by apply elem_of_nil in H.
  - vm_compute. reflexivity.
  - by exists n'.
Defined.

Lemma hard_mask_exact_witness :
  on_background true (PIL.RGBA (2, 1) hard_rows)
  = Ok (PIL.RGB (2, 1) ([[(10, 20, 30); (255, 255, 255)]])%Z).
Proof.
  rewrite (hard_mask_exact (2, 1) hard_rows).
  - reflexivity.
  - split; [reflexivity | repeat constructor].
  - unfold hard_rows, PIL.opaque_or_clear, PIL.band.
    repeat constructor; simpl; lia.
Defined.

Lemma on_white_well_formed_witness :
  ∃ saved, on_background true (PIL.RGBA (2, 1) soft_rows) = Ok saved
           ∧ PIL.well_formed saved ∧ PIL.size saved = (2, 1).
Proof.
  set (saved :=
         PIL.RGB (2, 1) ([[(132, 137, 142); (249, 249, 250)]])%Z).
  assert (on_background true (PIL.RGBA (2, 1) soft_rows) = Ok saved) as H
    by (vm_compute; reflexivity).
  exists saved.
  destruct (on_white_well_formed (2, 1) soft_rows saved)
    as (Hwf & Hsz & _).
  - split; [reflexivity | repeat constructor].
  - unfold soft_rows, PIL.eight_bit, PIL.band.
    repeat constructor; simpl; lia.
  - exact H.
  - by split_and!.
Defined.

End coverage_runs.
